(** * Movie recommender front end: the [App] component of
    [Frontend/webpage/src/App.js]

    The component is a React function component: ten [useState] cells, two
    reference-data fetches started on mount, two asynchronous click handlers
    ([handlePredict], [handleRecommend]) and a render function.

    The development has four layers.
    - [JS]: the JavaScript values the component handles (parsed JSON, IEEE
      doubles as [spec_float]), truthiness, property read, [||], [parseInt].
    - [App]: the state record, the handlers split at their [await]s, the
      render fragments that the properties talk about.
    - [Loop]: the browser event loop around the component: user events enabled
      by the rendered controls, outstanding requests, settlement of a request
      with an outcome; reachable states and their invariants.
    - [Page]: the loop cut down to what the rendered page offers: a select
      delivers the value of one of its options, and nothing happens after a
      render that throws. *)

From Stdlib Require Import ZArith List String Ascii Bool Lia.
From Stdlib Require Import Floats.SpecFloat.
From Stdlib Require Import DecimalString DecimalNat.
From Stdlib Require DecimalFacts.
Import ListNotations.

Open Scope string_scope.

Set Warnings "-register-all".

(** ** JavaScript values *)

Module JS.

(** A JavaScript number is an IEEE 754 binary64 value. *)
Definition number : Type := spec_float.

Definition prec : Z := 53.
Definition emax : Z := 1024.

Definition NaN : number := S754_nan.

(** The double nearest to the integer [z]; [negzero] is the sign given to a
    zero result. *)
Definition ofZ (negzero : bool) (z : Z) : number :=
  binary_normalize prec emax z 0 negzero.

Definition num (z : Z) : number := ofZ false z.

(** Values: what [JSON.parse] builds, and [undefined] for absent
    properties.  An object keeps its properties in insertion order. *)
Inductive value : Type :=
| VUndefined
| VNull
| VBool (b : bool)
| VNum (n : number)
| VStr (s : string)
| VArr (items : list value)
| VObj (props : list (string * value)).

(** Result of an evaluation that may throw; the exception is represented by
    its [message], the only part of it the component reads. *)
Inductive result (A : Type) : Type :=
| Ok (a : A)
| Throw (message : string).
Arguments Ok {A} a.
Arguments Throw {A} message.

Definition bind {A B : Type} (r : result A) (k : A -> result B) : result B :=
  match r with
  | Ok a => k a
  | Throw m => Throw m
  end.

Notation "x <- r ;; k" := (bind r (fun x => k))
  (at level 61, r at next level, right associativity).

(** ToBoolean. *)
Definition truthy (v : value) : bool :=
  match v with
  | VUndefined | VNull => false
  | VBool b => b
  | VNum (S754_zero _) | VNum S754_nan => false
  | VNum _ => true
  | VStr s => negb (String.eqb s "")
  | VArr _ | VObj _ => true
  end.

(** [a || b]. *)
Definition or_else (a b : value) : value :=
  if truthy a then a else b.

Fixpoint lookup (k : string) (props : list (string * value)) : option value :=
  match props with
  | [] => None
  | (k', v) :: rest => if String.eqb k k' then Some v else lookup k rest
  end.

(** The message of the TypeError raised by a property read on [null] or
    [undefined] (V8's wording; nothing below depends on the wording). *)
Definition cannot_read (what k : string) : string :=
  "Cannot read properties of " ++ what ++ " (reading '" ++ k ++ "')".

(** [v.k] for the property names the component reads ([userIds], [movies],
    [error], [recommendations], [movieId], [title], [genres],
    [predictedRating]): none of them is defined on a built-in prototype, so
    the read finds an own property of an object or nothing. *)
Definition get (v : value) (k : string) : result value :=
  match v with
  | VUndefined => Throw (cannot_read "undefined" k)
  | VNull => Throw (cannot_read "null" k)
  | VObj props =>
      match lookup k props with
      | Some x => Ok x
      | None => Ok VUndefined
      end
  | VBool _ | VNum _ | VStr _ | VArr _ => Ok VUndefined
  end.

(** *** [parseInt(s)] with no radix argument *)

Definition is_space (c : ascii) : bool :=
  let n := nat_of_ascii c in
  (Nat.leb 9 n && Nat.leb n 13) || Nat.eqb n 32.

Definition byte (c : ascii) (n : nat) : bool := Nat.eqb (nat_of_ascii c) n.

(** The white space outside ASCII, a string being the UTF-8 bytes of its
    text: U+00A0 in two bytes, and in three bytes U+1680, U+2000 to U+200A,
    U+2028, U+2029, U+202F, U+205F, U+3000 and U+FEFF. *)
Definition space2 (c1 c2 : ascii) : bool := byte c1 194 && byte c2 160.

Definition space3 (c1 c2 c3 : ascii) : bool :=
  let n3 := nat_of_ascii c3 in
  (byte c1 225 && byte c2 154 && byte c3 128)
  || (byte c1 226 && byte c2 128
      && ((Nat.leb 128 n3 && Nat.leb n3 138)
          || byte c3 168 || byte c3 169 || byte c3 175))
  || (byte c1 226 && byte c2 129 && byte c3 159)
  || (byte c1 227 && byte c2 128 && byte c3 128)
  || (byte c1 239 && byte c2 187 && byte c3 191).

(** The first byte of a white-space character of more than one byte. *)
Definition space_lead (c : ascii) : bool :=
  byte c 194 || byte c 225 || byte c 226 || byte c 227 || byte c 239.

Fixpoint trim_start (s : string) : string :=
  match s with
  | String c1 r1 =>
      if is_space c1 then trim_start r1
      else if space_lead c1 then
        match r1 with
        | String c2 r2 =>
            if space2 c1 c2 then trim_start r2
            else
              match r2 with
              | String c3 r3 => if space3 c1 c2 c3 then trim_start r3 else s
              | EmptyString => s
              end
        | EmptyString => s
        end
      else s
  | EmptyString => s
  end.

Definition digit_value (radix : Z) (c : ascii) : option Z :=
  let n := Z.of_nat (nat_of_ascii c) in
  let d :=
    if Z.leb 48 n && Z.leb n 57 then Some (n - 48)%Z
    else if Z.leb 97 n && Z.leb n 122 then Some (n - 87)%Z
    else if Z.leb 65 n && Z.leb n 90 then Some (n - 55)%Z
    else None in
  match d with
  | Some x => if Z.ltb x radix then Some x else None
  | None => None
  end.

(** The integer written by the longest prefix of [s] made of digits of
    [radix]; [acc] is [None] until a digit has been read. *)
Fixpoint digits (radix : Z) (s : string) (acc : option Z) : option Z :=
  match s with
  | String c rest =>
      match digit_value radix c with
      | Some d =>
          digits radix rest
            (Some (radix * match acc with Some a => a | None => 0 end + d)%Z)
      | None => acc
      end
  | EmptyString => acc
  end.

Definition strip_sign (s : string) : bool * string :=
  match s with
  | String "-" rest => (true, rest)
  | String "+" rest => (false, rest)
  | _ => (false, s)
  end.

Definition strip_hex (s : string) : Z * string :=
  match s with
  | String "0" (String "x" rest) => (16%Z, rest)
  | String "0" (String "X" rest) => (16%Z, rest)
  | _ => (10%Z, s)
  end.

(** Leading white space, an optional sign, an optional [0x], then digits;
    [NaN] when there is no digit.  The digits are read exactly and rounded
    once to a double. *)
Definition parseInt (s : string) : number :=
  let (neg, s1) := strip_sign (trim_start s) in
  let (radix, s2) := strip_hex s1 in
  match digits radix s2 None with
  | None => NaN
  | Some z => ofZ neg (if neg then - z else z)
  end.

(** Comparison with integer bounds, as [<=] on doubles. *)
Definition between (lo hi : Z) (n : number) : bool :=
  SFleb (num lo) n && SFleb n (num hi).

End JS.

(** ** The component *)

Module App.
Import JS.

Definition API_BASE_URL : string := "http://localhost:5000/api".

(** The ten [useState] cells.  [selectedUser] and [selectedMovie] hold the
    [value] of a DOM control, a string; [users], [movies], [prediction],
    [recommendations] and [error] hold whatever a response body (or the
    initial value) put there. *)
Record State : Type := mkState {
  activeTab : string;
  users : value;
  movies : value;
  selectedUser : string;
  selectedMovie : string;
  prediction : value;
  recommendations : value;
  topN : number;
  loading : bool;
  error : value
}.

(** The arguments of the [useState] calls. *)
Definition initial : State := {|
  activeTab := "predict";
  users := VArr [];
  movies := VArr [];
  selectedUser := "";
  selectedMovie := "";
  prediction := VNull;
  recommendations := VArr [];
  topN := num 10;
  loading := false;
  error := VNull
|}.

(** What a piece of handler code does to the outside: a call of one of the
    state setters, or a line on the console. *)
Inductive Effect : Type :=
| SetActiveTab (v : string)
| SetUsers (v : value)
| SetMovies (v : value)
| SetSelectedUser (v : string)
| SetSelectedMovie (v : string)
| SetPrediction (v : value)
| SetRecommendations (v : value)
| SetTopN (v : number)
| SetLoading (v : bool)
| SetError (v : value)
| ConsoleError (label message : string).

Definition apply (e : Effect) (st : State) : State :=
  match e with
  | SetActiveTab v =>
      mkState v (users st) (movies st) (selectedUser st) (selectedMovie st)
        (prediction st) (recommendations st) (topN st) (loading st) (error st)
  | SetUsers v =>
      mkState (activeTab st) v (movies st) (selectedUser st) (selectedMovie st)
        (prediction st) (recommendations st) (topN st) (loading st) (error st)
  | SetMovies v =>
      mkState (activeTab st) (users st) v (selectedUser st) (selectedMovie st)
        (prediction st) (recommendations st) (topN st) (loading st) (error st)
  | SetSelectedUser v =>
      mkState (activeTab st) (users st) (movies st) v (selectedMovie st)
        (prediction st) (recommendations st) (topN st) (loading st) (error st)
  | SetSelectedMovie v =>
      mkState (activeTab st) (users st) (movies st) (selectedUser st) v
        (prediction st) (recommendations st) (topN st) (loading st) (error st)
  | SetPrediction v =>
      mkState (activeTab st) (users st) (movies st) (selectedUser st)
        (selectedMovie st) v (recommendations st) (topN st) (loading st)
        (error st)
  | SetRecommendations v =>
      mkState (activeTab st) (users st) (movies st) (selectedUser st)
        (selectedMovie st) (prediction st) v (topN st) (loading st) (error st)
  | SetTopN v =>
      mkState (activeTab st) (users st) (movies st) (selectedUser st)
        (selectedMovie st) (prediction st) (recommendations st) v (loading st)
        (error st)
  | SetLoading v =>
      mkState (activeTab st) (users st) (movies st) (selectedUser st)
        (selectedMovie st) (prediction st) (recommendations st) (topN st) v
        (error st)
  | SetError v =>
      mkState (activeTab st) (users st) (movies st) (selectedUser st)
        (selectedMovie st) (prediction st) (recommendations st) (topN st)
        (loading st) v
  | ConsoleError _ _ => st
  end.

(** The state after a run of effects, and every state on the way (one per
    effect, the last one being [run es st]). *)
Definition run (es : list Effect) (st : State) : State :=
  fold_left (fun s e => apply e s) es st.

Fixpoint states (es : list Effect) (st : State) : list State :=
  match es with
  | [] => []
  | e :: rest => apply e st :: states rest (apply e st)
  end.

Fixpoint logged (es : list Effect) : list (string * string) :=
  match es with
  | [] => []
  | ConsoleError l m :: rest => (l, m) :: logged rest
  | _ :: rest => logged rest
  end.

(** A call of [fetch]: the object given to [JSON.stringify] stands for the
    body. *)
Record Request : Type := mkRequest {
  method : string;
  url : string;
  body : option value
}.

(** How the two [await]s of a handler end: [fetch] or [response.json()]
    rejects with an error carrying [message], or both resolve, [ok] being
    [response.ok] and [data] the parsed body. *)
Inductive Outcome : Type :=
| Rejected (message : string)
| Resolved (ok : bool) (data : value).

(** [try { body } catch (err) { handler(err.message) } finally { final }] for
    a body that throws before it has called a setter. *)
Definition try_catch_finally (body : result (list Effect))
    (handler : string -> list Effect) (final : list Effect) : list Effect :=
  match body with
  | Ok es => es
  | Throw m => handler m
  end ++ final.

(** *** Reference data: [fetchUsers], [fetchMovies] *)

Definition fetchUsers_request : Request :=
  mkRequest "GET" (API_BASE_URL ++ "/users") None.

Definition fetchUsers_try (o : Outcome) : result (list Effect) :=
  match o with
  | Rejected m => Throw m
  | Resolved _ data =>
      ids <- get data "userIds" ;;
      Ok [SetUsers (or_else ids (VArr []))]
  end.

Definition fetchUsers_settle (o : Outcome) : list Effect :=
  try_catch_finally (fetchUsers_try o)
    (fun m => [ConsoleError "Error fetching users:" m]) [].

Definition fetchMovies_request : Request :=
  mkRequest "GET" (API_BASE_URL ++ "/movies") None.

Definition fetchMovies_try (o : Outcome) : result (list Effect) :=
  match o with
  | Rejected m => Throw m
  | Resolved _ data =>
      ms <- get data "movies" ;;
      Ok [SetMovies (or_else ms (VArr []))]
  end.

Definition fetchMovies_settle (o : Outcome) : list Effect :=
  try_catch_finally (fetchMovies_try o)
    (fun m => [ConsoleError "Error fetching movies:" m]) [].

(** The outcomes of a reference fetch that bring no list under [key]: a
    rejection, a body whose read throws, a body with nothing truthy there. *)
Definition brings_no_list (key : string) (o : Outcome) : Prop :=
  match o with
  | Rejected _ => True
  | Resolved _ data =>
      match get data key with
      | Ok v => truthy v = false
      | Throw _ => True
      end
  end.

(** *** [handlePredict] *)

(** The part run by the click, up to the first [await]: the effects and the
    request issued, if any. *)
Definition handlePredict_click (st : State) : list Effect * option Request :=
  if negb (truthy (VStr (selectedUser st)))
     || negb (truthy (VStr (selectedMovie st)))
  then ([SetError (VStr "Please select both user and movie")], None)
  else
    ([SetLoading true; SetError VNull; SetPrediction VNull],
     Some (mkRequest "POST" (API_BASE_URL ++ "/predict")
             (Some (VObj [("userId", VNum (parseInt (selectedUser st)));
                          ("movieId", VNum (parseInt (selectedMovie st)))])))).

Definition handlePredict_try (o : Outcome) : result (list Effect) :=
  match o with
  | Rejected m => Throw m
  | Resolved ok data =>
      if ok then Ok [SetPrediction data]
      else
        e <- get data "error" ;;
        Ok [SetError (or_else e (VStr "Prediction failed"))]
  end.

(** The part run when the request settles. *)
Definition handlePredict_settle (o : Outcome) : list Effect :=
  try_catch_finally (handlePredict_try o)
    (fun m => [SetError (VStr ("Error connecting to server: " ++ m))])
    [SetLoading false].

(** *** [handleRecommend] *)

Definition handleRecommend_click (st : State) : list Effect * option Request :=
  if negb (truthy (VStr (selectedUser st)))
  then ([SetError (VStr "Please select a user")], None)
  else
    ([SetLoading true; SetError VNull; SetRecommendations (VArr [])],
     Some (mkRequest "POST" (API_BASE_URL ++ "/recommend")
             (Some (VObj [("userId", VNum (parseInt (selectedUser st)));
                          ("topN", VNum (topN st))])))).

Definition handleRecommend_try (o : Outcome) : result (list Effect) :=
  match o with
  | Rejected m => Throw m
  | Resolved ok data =>
      if ok then
        rs <- get data "recommendations" ;;
        Ok [SetRecommendations (or_else rs (VArr []))]
      else
        e <- get data "error" ;;
        Ok [SetError (or_else e (VStr "Recommendation failed"))]
  end.

Definition handleRecommend_settle (o : Outcome) : list Effect :=
  try_catch_finally (handleRecommend_try o)
    (fun m => [SetError (VStr ("Error connecting to server: " ++ m))])
    [SetLoading false].

(** *** Render: the fragments built from the stored collections

    The fragments are given for a cell that holds an array; [items] is its
    content.  A fragment that throws takes the whole render with it. *)

Record SelectOption : Type := mkOption {
  optionKey : value;
  optionValue : value;
  optionLabel : list value
}.

(** [users.slice(0, 100).map(userId => <option ...>User {userId}</option>)] *)
Definition userOptions (items : list value) : list SelectOption :=
  map (fun userId => mkOption userId userId [VStr "User "; userId])
    (firstn 100 items).

Fixpoint mapM {A B : Type} (f : A -> result B) (l : list A) : result (list B) :=
  match l with
  | [] => Ok []
  | a :: rest =>
      b <- f a ;;
      bs <- mapM f rest ;;
      Ok (b :: bs)
  end.

Definition movieOption (movie : value) : result SelectOption :=
  k <- get movie "movieId" ;;
  v <- get movie "movieId" ;;
  t <- get movie "title" ;;
  Ok (mkOption k v [t]).

(** [movies.slice(0, 500).map(movie => <option ...>{movie.title}</option>)] *)
Definition movieOptions (items : list value) : result (list SelectOption) :=
  mapM movieOption (firstn 500 items).

(** [Math.round(x)] read as a repeat count: the integer nearest to [x], a tie
    going up; [NaN] counts as 0. *)
Inductive Count : Type :=
| Finite (z : Z)
| Infinite (negative : bool).

Definition round_count (x : number) : Count :=
  match x with
  | S754_nan | S754_zero _ => Finite 0
  | S754_infinity s => Infinite s
  | S754_finite s m e =>
      let v := if s then Z.neg m else Z.pos m in
      Finite (if Z.leb 0 e then v * 2 ^ e
              else (v + 2 ^ (- e - 1)) / 2 ^ (- e))%Z
  end.

(** The longest string the engine builds, in UTF-16 code units: 2^29 - 24
    in V8 (Chrome, Node).  The star is one code unit. *)
Definition max_string_length : Z := 536870888.

(** [str.repeat(count)] for the one-unit star: a RangeError on a negative or
    infinite count, and on a count that would pass the engine's limit. *)
Definition repeat_length (c : Count) : result nat :=
  match c with
  | Finite z =>
      if Z.ltb z 0 then Throw "Invalid count value"
      else if Z.ltb max_string_length z then Throw "Invalid string length"
      else Ok (Z.to_nat z)
  | Infinite _ => Throw "Invalid count value"
  end.

(** The receiver of [.toFixed(2)] has to be a number. *)
Definition toFixed_receiver (v : value) : result number :=
  match v with
  | VNum n => Ok n
  | VUndefined => Throw (cannot_read "undefined" "toFixed")
  | VNull => Throw (cannot_read "null" "toFixed")
  | _ => Throw "rec.predictedRating.toFixed is not a function"
  end.

(** One recommendation card.  [rating] is the number shown through
    [toFixed(2)], [stars] the number of stars. *)
Record Card : Type := mkCard {
  cardKey : value;
  rank : nat;
  title : value;
  genres : value;
  rating : number;
  stars : nat
}.

Definition card (rec : value) (index : nat) : result Card :=
  k <- get rec "movieId" ;;
  t <- get rec "title" ;;
  g <- get rec "genres" ;;
  r <- get rec "predictedRating" ;;
  x <- toFixed_receiver r ;;
  n <- repeat_length (round_count x) ;;
  Ok (mkCard k (index + 1) t g x n).

(** [items.map((rec, index) => ...)], [index] counting from [start]. *)
Fixpoint cardsFrom (start : nat) (items : list value) : result (list Card) :=
  match items with
  | [] => Ok []
  | rec :: rest =>
      c <- card rec start ;;
      cs <- cardsFrom (S start) rest ;;
      Ok (c :: cs)
  end.

(** [recommendations.length > 0 && recommendations.map(...)]: no card for the
    empty array. *)
Definition recommendationCards (items : list value) : result (list Card) :=
  cardsFrom 0 items.

(** [disabled={loading}] on both submit buttons. *)
Definition buttonDisabled (st : State) : bool := loading st.

End App.

(** ** The event loop around the component

    JavaScript runs one task to completion before the next: a DOM event
    handler up to its first [await], or the rest of an [async] function once
    the awaited request has settled.  React renders between tasks, so the
    controls a user event finds are those rendered from the current state. *)

Module Loop.
Import JS App.

Inductive Handler : Type :=
| FetchUsers
| FetchMovies
| HandlePredict
| HandleRecommend.

(** A request that has been issued and has not settled, with the [async]
    function waiting for it. *)
Record Pending : Type := mkPending {
  request : Request;
  handler : Handler
}.

Record Sys : Type := mkSys {
  view : State;
  pending : list Pending;
  console : list (string * string)
}.

(** After the first render: the mount effect has called [fetchUsers()] and
    [fetchMovies()]. *)
Definition mounted : Sys := {|
  view := initial;
  pending := [mkPending fetchUsers_request FetchUsers;
              mkPending fetchMovies_request FetchMovies];
  console := []
|}.

Inductive Tab : Type :=
| PredictTab
| RecommendTab.

Definition tabName (t : Tab) : string :=
  match t with
  | PredictTab => "predict"
  | RecommendTab => "recommend"
  end.

(** The user's actions on the rendered controls, and the settlement of the
    [i]-th outstanding request.  A change event carries the control's DOM
    [value]; any string is admitted for it, which covers the values of the
    rendered options and what can be typed in the number input.  A render
    that throws takes the component off the page; the loop goes on, so what
    holds of its reachable states holds of the component's. *)
Inductive Event : Type :=
| ClickTab (t : Tab)
| ChangeUser (v : string)
| ChangeMovie (v : string)
| ChangeTopN (v : string)
| ClickPredict
| ClickRecommend
| Settle (i : nat) (o : Outcome).

(** [activeTab === 'predict' ? <predict section> : <recommend section>] *)
Definition predictSection (st : State) : bool :=
  String.eqb (activeTab st) "predict".

Definition settle_effects (h : Handler) (o : Outcome) : list Effect :=
  match h with
  | FetchUsers => fetchUsers_settle o
  | FetchMovies => fetchMovies_settle o
  | HandlePredict => handlePredict_settle o
  | HandleRecommend => handleRecommend_settle o
  end.

Definition remove_nth {A : Type} (i : nat) (l : list A) : list A :=
  firstn i l ++ skipn (S i) l.

Definition issued (h : Handler) (r : option Request) : list Pending :=
  match r with
  | Some req => [mkPending req h]
  | None => []
  end.

(** The task run for a click on a submit button. *)
Definition click (h : Handler) (task : State -> list Effect * option Request)
    (s : Sys) : Sys :=
  let (es, req) := task (view s) in
  mkSys (run es (view s)) (pending s ++ issued h req) (console s ++ logged es).

Definition perform (es : list Effect) (s : Sys) : Sys :=
  mkSys (run es (view s)) (pending s) (console s ++ logged es).

(** The task run when the [i]-th outstanding request, [p], settles with
    outcome [o]. *)
Definition settled (s : Sys) (i : nat) (p : Pending) (o : Outcome) : Sys :=
  let es := settle_effects (handler p) o in
  mkSys (run es (view s)) (remove_nth i (pending s)) (console s ++ logged es).

(** One task.  [None]: the control is not rendered or is disabled, or there
    is no such outstanding request. *)
Definition step (s : Sys) (ev : Event) : option Sys :=
  match ev with
  | ClickTab t => Some (perform [SetActiveTab (tabName t)] s)
  | ChangeUser v => Some (perform [SetSelectedUser v] s)
  | ChangeMovie v =>
      if predictSection (view s)
      then Some (perform [SetSelectedMovie v] s)
      else None
  | ChangeTopN v =>
      if predictSection (view s)
      then None
      else Some (perform [SetTopN (parseInt v)] s)
  | ClickPredict =>
      if predictSection (view s) && negb (buttonDisabled (view s))
      then Some (click HandlePredict handlePredict_click s)
      else None
  | ClickRecommend =>
      if negb (predictSection (view s)) && negb (buttonDisabled (view s))
      then Some (click HandleRecommend handleRecommend_click s)
      else None
  | Settle i o =>
      match nth_error (pending s) i with
      | Some p => Some (settled s i p o)
      | None => None
      end
  end.

Fixpoint exec (evs : list Event) (s : Sys) : option Sys :=
  match evs with
  | [] => Some s
  | ev :: rest =>
      match step s ev with
      | Some s' => exec rest s'
      | None => None
      end
  end.

(** The state after the events [evs] from the mounted component (the mounted
    state itself when one of them is not enabled). *)
Definition after (evs : list Event) : Sys :=
  match exec evs mounted with
  | Some s => s
  | None => mounted
  end.

Inductive reachable : Sys -> Prop :=
| reachable_mounted : reachable mounted
| reachable_step (s s' : Sys) (ev : Event) :
    reachable s -> step s ev = Some s' -> reachable s'.

Definition isAction (h : Handler) : bool :=
  match h with
  | HandlePredict | HandleRecommend => true
  | FetchUsers | FetchMovies => false
  end.

Definition isUsers (h : Handler) : bool :=
  match h with
  | FetchUsers => true
  | _ => false
  end.

Definition isMovies (h : Handler) : bool :=
  match h with
  | FetchMovies => true
  | _ => false
  end.

(** The outstanding requests whose handler satisfies [f]. *)
Definition outstanding (f : Handler -> bool) (s : Sys) : list Pending :=
  filter (fun p => f (handler p)) (pending s).

(** Is the event one of the user's? *)
Definition userEvent (ev : Event) : bool :=
  match ev with
  | Settle _ _ => false
  | _ => true
  end.

End Loop.

(** ** Invariants of the reachable states *)

Module Inv.
Import JS App Loop.

(** With no submit request outstanding [loading] is off.  With one, it is on,
    no error is stored and the result cell of the waiting handler is in its
    reset state.  There are never two. *)
Definition actions_inv (s : Sys) : Prop :=
  match outstanding isAction s with
  | [] => loading (view s) = false
  | [p] =>
      loading (view s) = true
      /\ error (view s) = VNull
      /\ (handler p = HandlePredict -> prediction (view s) = VNull)
      /\ (handler p = HandleRecommend -> recommendations (view s) = VArr [])
  | _ => False
  end.

(** Each reference list is fetched once, and is the empty array until its
    fetch settles. *)
Definition users_inv (s : Sys) : Prop :=
  match outstanding isUsers s with
  | [] => True
  | [_] => users (view s) = VArr []
  | _ => False
  end.

Definition movies_inv (s : Sys) : Prop :=
  match outstanding isMovies s with
  | [] => True
  | [_] => movies (view s) = VArr []
  | _ => False
  end.

Definition invariant (s : Sys) : Prop :=
  actions_inv s /\ users_inv s /\ movies_inv s.

End Inv.

(** ** The page: what the user can do on the rendered controls

    [Loop.step] takes a change event with any string and goes on whatever
    the render does, which is all that the invariants need.  The page itself
    offers less: a select delivers the value of one of its options, and a
    render that throws takes the component off the page, after which no task
    of its has any effect. *)

Module Page.
Import JS App Loop.

(** The integer a double stands for, if it is one. *)
Definition integer (x : number) : option Z :=
  match x with
  | S754_zero _ => Some 0%Z
  | S754_finite s m e =>
      let v := if s then Z.neg m else Z.pos m in
      if Z.leb 0 e then Some (v * 2 ^ e)%Z
      else if Z.eqb (Z.pos m mod 2 ^ (- e)) 0 then Some (v / 2 ^ (- e))%Z
      else None
  | _ => None
  end.

(** [String(x)] where it is plain: an integer of size at most 2^53, whose
    string is its decimal numeral, and the three names.  [None]: the other
    numbers, whose shortest digits are left out. *)
Definition number_string (x : number) : option string :=
  match x with
  | S754_nan => Some "NaN"
  | S754_infinity s => Some (if s then "-Infinity" else "Infinity")
  | _ =>
      match integer x with
      | Some z =>
          if Z.leb (Z.abs z) (2 ^ 53)
          then Some (NilZero.string_of_int (Z.to_int z))
          else None
      | None => None
      end
  end.

(** The [value] attribute React writes for [<option value={v}>], which is
    what the select's change event delivers.  [None]: not modelled ([null]
    and [undefined], for which the option's text stands in, arrays and
    objects, and the numbers [number_string] leaves out). *)
Definition dom_string (v : value) : option string :=
  match v with
  | VStr s => Some s
  | VBool b => Some (if b then "true" else "false")
  | VNum x => number_string x
  | _ => None
  end.

(** Can the change event of an option rendered with value [v] deliver [d]?
    Where the attribute is not modelled any string is admitted. *)
Definition accepts (v : value) (d : string) : bool :=
  match dom_string v with
  | Some a => String.eqb d a
  | None => true
  end.

Definition throws {A : Type} (r : result A) : bool :=
  match r with
  | Ok _ => false
  | Throw _ => true
  end.

(** The prediction card, [prediction && (...)]: known to throw when the
    rating is a number whose star line throws. *)
Definition predictionThrows (st : State) : bool :=
  if truthy (prediction st) then
    match get (prediction st) "predictedRating" with
    | Ok (VNum x) => throws (repeat_length (round_count x))
    | _ => false
    end
  else false.

(** The recommendation list, [recommendations.length > 0 && recommendations
    .map(...)]: known to throw when a card throws, and when the cell holds
    something with a positive [length] that is not an array. *)
Definition recommendationsThrow (st : State) : bool :=
  match recommendations st with
  | VArr items => throws (recommendationCards items)
  | VStr s => negb (String.eqb s "")
  | VObj props =>
      match lookup "length" props with
      | Some (VNum x) => SFltb (S754_zero false) x
      | _ => false
      end
  | VNull | VUndefined => true
  | VBool _ | VNum _ => false
  end.

(** Is the render known to throw?  The user select is in both sections and
    needs an array; the predict section has the movie select and the
    prediction card, the other one the recommendation list.  (What React
    itself refuses, such as an object as a child, is left out: the page is
    then taken to go on.) *)
Definition pageThrows (st : State) : bool :=
  match users st with
  | VArr _ =>
      if predictSection st then
        match movies st with
        | VArr items => throws (movieOptions items) || predictionThrows st
        | _ => true
        end
      else recommendationsThrow st
  | _ => true
  end.

(** What happens on the page: the user's actions, a select naming the
    option chosen ([None] for the placeholder) next to the value delivered,
    and the arrival of a response. *)
Inductive Action : Type :=
| PressTab (t : Tab)
| PickUser (k : option nat) (v : string)
| PickMovie (k : option nat) (v : string)
| TypeTopN (v : string)
| PressPredict
| PressRecommend
| Arrive (i : nat) (o : Outcome).

Definition event (a : Action) : Event :=
  match a with
  | PressTab t => ClickTab t
  | PickUser _ v => ChangeUser v
  | PickMovie _ v => ChangeMovie v
  | TypeTopN v => ChangeTopN v
  | PressPredict => ClickPredict
  | PressRecommend => ClickRecommend
  | Arrive i o => Settle i o
  end.

Definition picked (options : list SelectOption) (k : option nat) (v : string)
    : bool :=
  match k with
  | None => String.eqb v ""
  | Some i =>
      match nth_error options i with
      | Some opt => accepts (optionValue opt) v
      | None => false
      end
  end.

(** Is the action one the rendered page offers? *)
Definition offered (st : State) (a : Action) : bool :=
  match a with
  | PickUser k v =>
      match users st with
      | VArr items => picked (userOptions items) k v
      | _ => false
      end
  | PickMovie k v =>
      match movies st with
      | VArr items =>
          match movieOptions items with
          | Ok options => picked options k v
          | Throw _ => false
          end
      | _ => false
      end
  | _ => true
  end.

Definition step (s : Sys) (a : Action) : option Sys :=
  if pageThrows (view s) then None
  else if offered (view s) a then Loop.step s (event a)
  else None.

Fixpoint exec (acts : list Action) (s : Sys) : option Sys :=
  match acts with
  | [] => Some s
  | a :: rest =>
      match step s a with
      | Some s' => exec rest s'
      | None => None
      end
  end.

(** The state after the actions [acts] on the mounted component (the mounted
    state itself when one of them is not offered). *)
Definition after (acts : list Action) : Sys :=
  match exec acts mounted with
  | Some s => s
  | None => mounted
  end.

Inductive reachable : Sys -> Prop :=
| reachable_mounted : reachable mounted
| reachable_step (s s' : Sys) (a : Action) :
    reachable s -> step s a = Some s' -> reachable s'.

(** The result the page has room for: the prediction in the predict section,
    the recommendations in the other one. *)
Definition shownResult (st : State) : value :=
  if predictSection st then prediction st else recommendations st.

Definition picksUser (a : Action) : bool :=
  match a with PickUser _ _ => true | _ => false end.

Definition picksMovie (a : Action) : bool :=
  match a with PickMovie _ _ => true | _ => false end.

End Page.

(** ** Four sentences of the specification, as they are written

    Each is refuted below, and the statement that holds is proved next to
    it. *)

Module Stated.
Import JS App Loop.

(** A recommend request carries a [topN] between 1 and 50, whatever the
    [topN] cell holds. *)
Definition topN_clamped : Prop :=
  forall (s : Sys) (es : list Effect) (req : Request),
    reachable s ->
    handleRecommend_click (view s) = (es, Some req) ->
    exists uid n,
      body req = Some (VObj [("userId", uid); ("topN", VNum n)])
      /\ between 1 50 n = true.

(** A predict request that ends in a non-success response stores the
    [error] of the response body as it is; one that is rejected stores the
    prefixed message.  Both leave no prediction. *)
Definition failure_shown_verbatim : Prop :=
  forall (s : Sys) (i : nat) (p : Pending) (o : Outcome),
    reachable s ->
    nth_error (pending s) i = Some p ->
    handler p = HandlePredict ->
    let st' := view (settled s i p o) in
    match o with
    | Resolved true _ => True
    | Resolved false data =>
        prediction st' = VNull /\ get data "error" = Ok (error st')
    | Rejected m =>
        prediction st' = VNull
        /\ error st' = VStr ("Error connecting to server: " ++ m)
    end.

(** A submit click that passes validation leaves every result cell reset:
    no prediction, no recommendations, no error, [loading] on. *)
Definition all_results_reset : Prop :=
  forall (s s' : Sys),
    Page.reachable s ->
    (Page.step s Page.PressPredict = Some s'
     /\ snd (handlePredict_click (view s)) <> None)
    \/ (Page.step s Page.PressRecommend = Some s'
        /\ snd (handleRecommend_click (view s)) <> None) ->
    prediction (view s') = VNull
    /\ recommendations (view s') = VArr []
    /\ error (view s') = VNull
    /\ loading (view s') = true.

(** Whatever the user does next, a stored error is gone afterwards. *)
Definition next_action_clears_error : Prop :=
  forall (s s' : Sys) (ev : Event),
    reachable s ->
    error (view s) <> VNull ->
    userEvent ev = true ->
    step s ev = Some s' ->
    error (view s') <> error (view s).

End Stated.

(** ** The rest of the render, and what the further properties speak of *)

Module View.
Import JS App Loop.

(** [`tab ${activeTab === name ? 'active' : ''}`], the class of a tab
    button. *)
Definition tabClass (st : State) (t : Tab) : string :=
  "tab " ++ (if String.eqb (activeTab st) (tabName t) then "active" else "").

(** [{error && <div className="error-message">{error}</div>}]: a truthy
    [error] is shown in the message box, a falsy one is itself the child. *)
Inductive Slot : Type :=
| Bare (v : value)
| ErrorMessage (child : value).

Definition errorSlot (st : State) : Slot :=
  if truthy (error st) then ErrorMessage (error st) else Bare (error st).

(** The star line of a result: ['⭐'.repeat(Math.round(x))] for a numeric
    rating [x], in the prediction card and in each recommendation card. *)
Definition starLine (x : number) : result nat :=
  repeat_length (round_count x).

(** The elements that a recommendation card cannot be made from: [null]
    and [undefined], an element whose [predictedRating] is not a number, and
    one whose rating rounds to an infinite or a negative count of stars. *)
Definition breaks_card (rec : value) : Prop :=
  rec = VNull
  \/ rec = VUndefined
  \/ (exists v, get rec "predictedRating" = Ok v /\ forall x, v <> VNum x)
  \/ (exists x,
        get rec "predictedRating" = Ok (VNum x)
        /\ match round_count x with
           | Infinite _ => True
           | Finite z => (z < 0)%Z
           end).

(** The string of a natural number below 10^21, which is the DOM [value] of
    an option rendered with that number as its [value]. *)
Definition decimal (n : nat) : string :=
  NilEmpty.string_of_uint (Nat.to_uint n).

(** A double given by sign, mantissa and exponent with a mantissa of at most
    53 bits. *)
Definition fits (x : number) : Prop :=
  match x with
  | S754_finite _ m _ => (Z.pos m < 2 ^ 53)%Z
  | _ => True
  end.

(** The requests the component issues, by the handler that waits for
    them. *)
Definition issued_by_code (p : Pending) : Prop :=
  match handler p with
  | FetchUsers => request p = fetchUsers_request
  | FetchMovies => request p = fetchMovies_request
  | HandlePredict =>
      exists u m : string,
        u <> "" /\ m <> ""
        /\ request p
           = mkRequest "POST" (API_BASE_URL ++ "/predict")
               (Some (VObj [("userId", VNum (parseInt u));
                            ("movieId", VNum (parseInt m))]))
  | HandleRecommend =>
      exists (u : string) (n : number),
        u <> ""
        /\ request p
           = mkRequest "POST" (API_BASE_URL ++ "/recommend")
               (Some (VObj [("userId", VNum (parseInt u)); ("topN", VNum n)]))
  end.

(** Does the event come from the control that edits the given cell? *)
Definition editsUser (ev : Event) : bool :=
  match ev with ChangeUser _ => true | _ => false end.

Definition editsMovie (ev : Event) : bool :=
  match ev with ChangeMovie _ => true | _ => false end.

Definition editsTopN (ev : Event) : bool :=
  match ev with ChangeTopN _ => true | _ => false end.

Definition editsTab (ev : Event) : bool :=
  match ev with ClickTab _ => true | _ => false end.

End View.

Import JS App Loop Inv View.

Open Scope list_scope.

Ltac unfold_settle :=
  unfold settle_effects, fetchUsers_settle, fetchUsers_try,
    fetchMovies_settle, fetchMovies_try, handlePredict_settle,
    handlePredict_try, handleRecommend_settle, handleRecommend_try,
    try_catch_finally, bind.

(** Every way the [try] block of handler [h] can end, each with its list of
    effects computed. *)
Ltac settle_cases h o :=
  unfold_settle;
  destruct h; destruct o as [m | [|] data];
  repeat match goal with
    | |- context [get ?d ?k] => destruct (get d k)
    end;
  cbn.

(** ** Lists of outstanding requests *)

Section Outstanding.
Context {A : Type} (f : A -> bool).

Lemma remove_nth_split (l : list A) (i : nat) (p : A) :
  nth_error l i = Some p ->
  exists l1 l2, l = l1 ++ p :: l2 /\ remove_nth i l = l1 ++ l2.
Proof.
  intros H.
  destruct (nth_error_split l i H) as (l1 & l2 & -> & <-).
  exists l1, l2. split; [reflexivity|].
  unfold remove_nth.
  rewrite firstn_app, firstn_all, Nat.sub_diag, firstn_O, app_nil_r.
  replace (S (List.length l1)) with (List.length l1 + 1) by lia.
  rewrite skipn_app, skipn_all2 by lia.
  replace (List.length l1 + 1 - List.length l1) with 1 by lia.
  reflexivity.
Qed.

Lemma filter_remove_other (l : list A) (i : nat) (p : A) :
  nth_error l i = Some p -> f p = false ->
  filter f (remove_nth i l) = filter f l.
Proof.
  intros H Hp.
  destruct (remove_nth_split l i p H) as (l1 & l2 & -> & ->).
  rewrite !filter_app. simpl. now rewrite Hp.
Qed.

Lemma filter_remove_only (l : list A) (i : nat) (p q : A) :
  nth_error l i = Some p -> f p = true -> filter f l = [q] ->
  q = p /\ filter f (remove_nth i l) = [].
Proof.
  intros H Hp Hq.
  destruct (remove_nth_split l i p H) as (l1 & l2 & -> & ->).
  rewrite !filter_app in *. simpl in Hq. rewrite Hp in Hq.
  destruct (filter f l1) as [|a l1']; simpl in *.
  - injection Hq as -> Hl2. now rewrite Hl2.
  - destruct l1'; discriminate.
Qed.

Lemma filter_nth_nonempty (l : list A) (i : nat) (p : A) :
  nth_error l i = Some p -> f p = true -> filter f l <> [].
Proof.
  intros H Hp E.
  assert (In p (filter f l)) as Hin
    by (apply filter_In; split; [eapply nth_error_In; eassumption | assumption]).
  rewrite E in Hin. destruct Hin.
Qed.

End Outstanding.

(** ** What the settlement of each request does to the state *)

Lemma settle_keeps_loading (h : Handler) (o : Outcome) (st : State) :
  isAction h = false ->
  loading (run (settle_effects h o) st) = loading st
  /\ error (run (settle_effects h o) st) = error st
  /\ prediction (run (settle_effects h o) st) = prediction st
  /\ recommendations (run (settle_effects h o) st) = recommendations st.
Proof.
  intros Hh. settle_cases h o; try discriminate; repeat split.
Qed.

Lemma settle_action_loading (h : Handler) (o : Outcome) (st : State) :
  isAction h = true ->
  loading (run (settle_effects h o) st) = false.
Proof.
  intros Hh. settle_cases h o; try discriminate; reflexivity.
Qed.

Lemma settle_keeps_users (h : Handler) (o : Outcome) (st : State) :
  isUsers h = false ->
  users (run (settle_effects h o) st) = users st.
Proof.
  intros Hh. settle_cases h o; try discriminate; reflexivity.
Qed.

Lemma settle_keeps_movies (h : Handler) (o : Outcome) (st : State) :
  isMovies h = false ->
  movies (run (settle_effects h o) st) = movies st.
Proof.
  intros Hh. settle_cases h o; try discriminate; reflexivity.
Qed.

(** ** The invariant holds in every reachable state *)

Lemma invariant_mounted : invariant mounted.
Proof.
  repeat split.
Qed.

Lemma outstanding_click (f : Handler -> bool) (h : Handler)
    (task : State -> list Effect * option Request) (s : Sys) :
  outstanding f (click h task s)
  = outstanding f s
    ++ match snd (task (view s)) with
       | Some req => if f h then [mkPending req h] else []
       | None => []
       end.
Proof.
  unfold outstanding, click.
  destruct (task (view s)) as [es [req|]]; simpl; rewrite filter_app; simpl;
    [destruct (f h)|]; reflexivity.
Qed.

Lemma view_click (h : Handler) (task : State -> list Effect * option Request)
    (s : Sys) :
  view (click h task s) = run (fst (task (view s))) (view s).
Proof.
  unfold click. now destruct (task (view s)).
Qed.

Lemma idle_no_action (s : Sys) :
  actions_inv s -> loading (view s) = false -> outstanding isAction s = [].
Proof.
  unfold actions_inv. intros H Hl.
  destruct (outstanding isAction s) as [|p [|q l]]; [reflexivity| |contradiction].
  destruct H as [H _]. congruence.
Qed.

Lemma invariant_perform (s : Sys) (es : list Effect) :
  loading (run es (view s)) = loading (view s) ->
  error (run es (view s)) = error (view s) ->
  prediction (run es (view s)) = prediction (view s) ->
  recommendations (run es (view s)) = recommendations (view s) ->
  users (run es (view s)) = users (view s) ->
  movies (run es (view s)) = movies (view s) ->
  invariant s -> invariant (perform es s).
Proof.
  intros Hl He Hp Hr Hu Hm (Ha & Hus & Hmo).
  unfold invariant, actions_inv, users_inv, movies_inv, outstanding, perform
    in *; simpl.
  rewrite Hl, He, Hp, Hr, Hu, Hm. auto.
Qed.

Lemma invariant_click_predict (s : Sys) :
  loading (view s) = false ->
  invariant s -> invariant (click HandlePredict handlePredict_click s).
Proof.
  intros Hl (Ha & Hus & Hmo).
  pose proof (idle_no_action s Ha Hl) as Hnone.
  unfold invariant, actions_inv, users_inv, movies_inv in *.
  rewrite !outstanding_click, view_click, Hnone.
  unfold handlePredict_click.
  destruct (negb (truthy (VStr (selectedUser (view s))))
            || negb (truthy (VStr (selectedMovie (view s)))));
    simpl; rewrite ?app_nil_r; simpl.
  - auto.
  - repeat split; auto; discriminate.
Qed.

Lemma invariant_click_recommend (s : Sys) :
  loading (view s) = false ->
  invariant s -> invariant (click HandleRecommend handleRecommend_click s).
Proof.
  intros Hl (Ha & Hus & Hmo).
  pose proof (idle_no_action s Ha Hl) as Hnone.
  unfold invariant, actions_inv, users_inv, movies_inv in *.
  rewrite !outstanding_click, view_click, Hnone.
  unfold handleRecommend_click.
  destruct (negb (truthy (VStr (selectedUser (view s)))));
    simpl; rewrite ?app_nil_r; simpl.
  - auto.
  - repeat split; auto; discriminate.
Qed.

Lemma actions_inv_settled (s : Sys) (i : nat) (p : Pending) (o : Outcome) :
  nth_error (pending s) i = Some p ->
  actions_inv s -> actions_inv (settled s i p o).
Proof.
  intros Hi Ha. unfold actions_inv, outstanding in *. simpl.
  destruct (isAction (handler p)) eqn:Hp.
  - pose proof (filter_nth_nonempty (fun q => isAction (handler q)) _ _ _ Hi Hp)
      as Hne.
    destruct (filter _ (pending s)) as [|q [|q' l]] eqn:Hf;
      [congruence | | contradiction].
    destruct (filter_remove_only (fun q => isAction (handler q)) _ _ _ _ Hi Hp Hf)
      as [_ ->].
    now apply settle_action_loading.
  - rewrite (filter_remove_other (fun q => isAction (handler q)) _ _ _ Hi Hp).
    destruct (settle_keeps_loading (handler p) o (view s) Hp)
      as (-> & -> & -> & ->).
    exact Ha.
Qed.

Lemma users_inv_settled (s : Sys) (i : nat) (p : Pending) (o : Outcome) :
  nth_error (pending s) i = Some p ->
  users_inv s -> users_inv (settled s i p o).
Proof.
  intros Hi Hu. unfold users_inv, outstanding in *. simpl.
  destruct (isUsers (handler p)) eqn:Hp.
  - destruct (filter _ (pending s)) as [|q [|q' l]] eqn:Hf; [| |contradiction].
    + now destruct
        (filter_nth_nonempty (fun q => isUsers (handler q)) _ _ _ Hi Hp).
    + now destruct
        (filter_remove_only (fun q => isUsers (handler q)) _ _ _ _ Hi Hp Hf)
        as [_ ->].
  - rewrite (filter_remove_other (fun q => isUsers (handler q)) _ _ _ Hi Hp).
    now rewrite settle_keeps_users.
Qed.

Lemma movies_inv_settled (s : Sys) (i : nat) (p : Pending) (o : Outcome) :
  nth_error (pending s) i = Some p ->
  movies_inv s -> movies_inv (settled s i p o).
Proof.
  intros Hi Hu. unfold movies_inv, outstanding in *. simpl.
  destruct (isMovies (handler p)) eqn:Hp.
  - destruct (filter _ (pending s)) as [|q [|q' l]] eqn:Hf; [| |contradiction].
    + now destruct
        (filter_nth_nonempty (fun q => isMovies (handler q)) _ _ _ Hi Hp).
    + now destruct
        (filter_remove_only (fun q => isMovies (handler q)) _ _ _ _ Hi Hp Hf)
        as [_ ->].
  - rewrite (filter_remove_other (fun q => isMovies (handler q)) _ _ _ Hi Hp).
    now rewrite settle_keeps_movies.
Qed.

Lemma step_settle (s : Sys) (i : nat) (p : Pending) (o : Outcome) :
  nth_error (pending s) i = Some p ->
  step s (Settle i o) = Some (settled s i p o).
Proof.
  intros Hi. simpl. now rewrite Hi.
Qed.

Lemma invariant_step (s s' : Sys) (ev : Event) :
  invariant s -> step s ev = Some s' -> invariant s'.
Proof.
  intros Hinv Hstep.
  destruct ev as [t | v | v | v | | | i o]; simpl in Hstep.
  - injection Hstep as <-. now apply invariant_perform.
  - injection Hstep as <-. now apply invariant_perform.
  - destruct (predictSection (view s)); [|discriminate].
    injection Hstep as <-. now apply invariant_perform.
  - destruct (predictSection (view s)); [discriminate|].
    injection Hstep as <-. now apply invariant_perform.
  - unfold buttonDisabled in Hstep.
    destruct (predictSection (view s)), (loading (view s)) eqn:Hl;
      try discriminate.
    injection Hstep as <-. now apply invariant_click_predict.
  - unfold buttonDisabled in Hstep.
    destruct (predictSection (view s)), (loading (view s)) eqn:Hl;
      try discriminate.
    injection Hstep as <-. now apply invariant_click_recommend.
  - destruct (nth_error (pending s) i) as [p|] eqn:Hi; [|discriminate].
    injection Hstep as <-. destruct Hinv as (Ha & Hu & Hm).
    repeat split.
    + now apply (actions_inv_settled s i p o).
    + now apply (users_inv_settled s i p o).
    + now apply (movies_inv_settled s i p o).
Qed.

Lemma invariant_reachable (s : Sys) : reachable s -> invariant s.
Proof.
  induction 1 as [|s s' ev _ IH Hstep].
  - exact invariant_mounted.
  - exact (invariant_step s s' ev IH Hstep).
Qed.

Lemma exec_reachable (evs : list Event) (s s' : Sys) :
  reachable s -> exec evs s = Some s' -> reachable s'.
Proof.
  revert s. induction evs as [|ev rest IH]; simpl; intros s Hs He.
  - now injection He as <-.
  - destruct (step s ev) as [s1|] eqn:Hstep; [|discriminate].
    exact (IH s1 (reachable_step s s1 ev Hs Hstep) He).
Qed.

Lemma reachable_after (evs : list Event) : reachable (after evs).
Proof.
  unfold after. destruct (exec evs mounted) as [s|] eqn:He.
  - exact (exec_reachable evs mounted s reachable_mounted He).
  - exact reachable_mounted.
Qed.

(** ** Validation and the request sent *)

Lemma empty_falsy (v : string) : truthy (VStr v) = false <-> v = EmptyString.
Proof.
  simpl. destruct (String.eqb_spec v ""); simpl; split; congruence.
Qed.

Lemma nonempty_truthy (v : string) : v <> EmptyString -> truthy (VStr v) = true.
Proof.
  intros H. destruct (truthy (VStr v)) eqn:E; [reflexivity|].
  now apply empty_falsy in E.
Qed.

(** The request of [handleRecommend] carries the [topN] cell unchanged, next
    to [parseInt(selectedUser)]; it is within 1..50 exactly when the cell is.
    The handler checks only that a user is selected. *)
Lemma recommend_sends_stored_topN (st : State) (es : list Effect)
    (req : Request) :
  handleRecommend_click st = (es, Some req) ->
  selectedUser st <> EmptyString
  /\ exists n,
       body req = Some (VObj [("userId"%string, VNum (parseInt (selectedUser st)));
                              ("topN"%string, VNum n)])
       /\ n = topN st
       /\ between 1 50 n = between 1 50 (topN st).
Proof.
  unfold handleRecommend_click. intros H.
  destruct (truthy (VStr (selectedUser st))) eqn:Hu; simpl in H;
    [|discriminate].
  injection H as _ <-. split.
  - intros E. apply empty_falsy in E. congruence.
  - exists (topN st). repeat split.
Qed.

(** The number input stores [parseInt] of what it holds, in range or not. *)
Lemma number_input_stores_parseInt (s s' : Sys) (v : string) :
  step s (ChangeTopN v) = Some s' -> topN (view s') = parseInt v.
Proof.
  simpl. destruct (predictSection (view s)); [discriminate|].
  now intros [= <-].
Qed.

(** The sentence [Stated.topN_clamped] does not hold of the reachable
    states. *)
Lemma topN_clamped_fails : ~ Stated.topN_clamped.
Proof.
  intros H.
  destruct (H (after [ClickTab RecommendTab; ChangeTopN "100"; ChangeUser "1"])
              _ _ (reachable_after _) eq_refl)
    as (uid & n & Hbody & Hrange).
  injection Hbody as _ <-.
  vm_compute in Hrange. discriminate.
Qed.

(** C1 does not hold of [handleRecommend]: with 100 typed in the number input
    of the recommend tab and user 1 chosen, a click on the submit button
    issues one request, whose body carries [topN] 100, outside 1..50; with
    the input emptied instead, the body carries [NaN].  The range is declared
    on the input element ([min], [max]) and checked nowhere. *)
Theorem recommend_sends_unclamped_topN :
  map (fun p => body (request p))
    (outstanding isAction
       (after [ClickTab RecommendTab; ChangeTopN "100"; ChangeUser "1";
               ClickRecommend]))
  = [Some (VObj [("userId"%string, VNum (num 1));
                 ("topN"%string, VNum (num 100))])]
  /\ between 1 50 (num 100) = false
  /\ map (fun p => body (request p))
       (outstanding isAction
          (after [ClickTab RecommendTab; ChangeTopN ""; ChangeUser "1";
                  ClickRecommend]))
     = [Some (VObj [("userId"%string, VNum (num 1));
                    ("topN"%string, VNum NaN)])]
  /\ between 1 50 NaN = false.
Proof.
  repeat split; vm_compute; reflexivity.
Qed.

(** C2: with no user or no movie selected, [handlePredict] issues no
    request, and the state it leaves is the one it found with [error]
    replaced by the validation message.  Nothing is written to the list of
    outstanding requests or to the console. *)
Theorem predict_validation (s : Sys) :
  selectedUser (view s) = EmptyString \/ selectedMovie (view s) = EmptyString ->
  handlePredict_click (view s)
  = ([SetError (VStr "Please select both user and movie")], None)
  /\ pending (click HandlePredict handlePredict_click s) = pending s
  /\ console (click HandlePredict handlePredict_click s) = console s
  /\ view (click HandlePredict handlePredict_click s)
     = mkState (activeTab (view s)) (users (view s)) (movies (view s))
         (selectedUser (view s)) (selectedMovie (view s))
         (prediction (view s)) (recommendations (view s)) (topN (view s))
         (loading (view s)) (VStr "Please select both user and movie").
Proof.
  intros H.
  assert (handlePredict_click (view s)
          = ([SetError (VStr "Please select both user and movie")], None))
    as Hclick.
  { unfold handlePredict_click.
    destruct H as [H | H]; apply empty_falsy in H; rewrite H; simpl;
      [|rewrite orb_true_r]; reflexivity. }
  split; [exact Hclick|].
  unfold click. rewrite Hclick. simpl.
  now rewrite !app_nil_r.
Qed.

Lemma predict_validation_witness :
  pending (click HandlePredict handlePredict_click mounted) = pending mounted
  /\ error (view (click HandlePredict handlePredict_click mounted))
     = VStr "Please select both user and movie".
Proof.
  destruct (predict_validation mounted (or_introl eq_refl))
    as (_ & Hp & _ & Hv).
  split; [exact Hp | now rewrite Hv].
Defined.

(** ** Settlement of a predict request *)

(** While a predict request is outstanding, the state is the one the click
    left: [loading] on, no error, no prediction. *)
Lemma predict_outstanding (s : Sys) (i : nat) (p : Pending) :
  reachable s ->
  nth_error (pending s) i = Some p ->
  handler p = HandlePredict ->
  loading (view s) = true
  /\ error (view s) = VNull
  /\ prediction (view s) = VNull.
Proof.
  intros Hs Hi Hp.
  destruct (invariant_reachable s Hs) as (Ha & _).
  unfold actions_inv, outstanding in Ha.
  assert (isAction (handler p) = true) as Hact by now rewrite Hp.
  pose proof (filter_nth_nonempty (fun q => isAction (handler q)) _ _ _ Hi Hact)
    as Hne.
  destruct (filter _ (pending s)) as [|q [|q' l]] eqn:Hf;
    [congruence | | contradiction].
  destruct (filter_remove_only (fun q => isAction (handler q)) _ _ _ _ Hi Hact Hf)
    as [-> _].
  destruct Ha as (Hl & He & Hpred & _). auto.
Qed.

(** C3: a validated click of [handlePredict] leaves neither the previous
    error nor the previous prediction; when its request then settles with a
    success response, every state from the first setter call on holds the
    response data as the prediction and no error, and the last one has
    [loading] off. *)
Theorem predict_success_replaces (s : Sys) (i : nat) (p : Pending)
    (data : value) :
  reachable s ->
  nth_error (pending s) i = Some p ->
  handler p = HandlePredict ->
  (forall st : State,
      snd (handlePredict_click st) <> None ->
      prediction (run (fst (handlePredict_click st)) st) = VNull
      /\ error (run (fst (handlePredict_click st)) st) = VNull)
  /\ step s (Settle i (Resolved true data))
     = Some (settled s i p (Resolved true data))
  /\ prediction (view (settled s i p (Resolved true data))) = data
  /\ error (view (settled s i p (Resolved true data))) = VNull
  /\ loading (view (settled s i p (Resolved true data))) = false
  /\ Forall (fun st => prediction st = data /\ error st = VNull)
       (states (handlePredict_settle (Resolved true data)) (view s)).
Proof.
  intros Hs Hi Hp.
  destruct (predict_outstanding s i p Hs Hi Hp) as (_ & He & _).
  split.
  { intros st. unfold handlePredict_click.
    destruct (negb (truthy (VStr (selectedUser st)))
              || negb (truthy (VStr (selectedMovie st))));
      simpl; [congruence | auto]. }
  split; [now apply step_settle|].
  unfold settled. rewrite Hp. cbn.
  repeat split; try assumption.
  repeat constructor; assumption.
Qed.

Lemma predict_success_replaces_witness :
  let s := after [ChangeUser "1"; ChangeMovie "10"; ClickPredict] in
  exists p,
    nth_error (pending s) 2 = Some p
    /\ prediction (view (settled s 2 p (Resolved true (VStr "data"))))
       = VStr "data"
    /\ error (view (settled s 2 p (Resolved true (VStr "data")))) = VNull.
Proof.
  intros s.
  exists (mkPending
            (mkRequest "POST" (API_BASE_URL ++ "/predict")
               (Some (VObj [("userId"%string, VNum (parseInt "1"));
                            ("movieId"%string, VNum (parseInt "10"))])))
            HandlePredict).
  split; [reflexivity|].
  destruct (predict_success_replaces s 2 _ (VStr "data")
              (reachable_after _) eq_refl eq_refl)
    as (_ & _ & Hpred & Herr & _).
  split; assumption.
Defined.

(** C4, as written, fails: a non-success response whose body is
    [{error: ""}] leaves the fallback text in [error], not the body's
    [error]. *)
Lemma failure_shown_verbatim_fails : ~ Stated.failure_shown_verbatim.
Proof.
  intros H.
  specialize (H (after [ChangeUser "1"; ChangeMovie "10"; ClickPredict]) 2 _
                (Resolved false (VObj [("error"%string, VStr "")]))
                (reachable_after _) eq_refl eq_refl).
  destruct H as [_ H]. discriminate.
Qed.

(** C4, amended: when an outstanding predict request ends otherwise than in
    a success response, the state is left with no prediction, [loading] off,
    and in [error]
    - the prefixed message, when [fetch] or [response.json()] rejects;
    - the [error] of the response body as it is, when that is truthy (a
      non-empty string under the backend's contract);
    - the text "Prediction failed", when the body has no [error] or a falsy
      one;
    - the prefixed TypeError message, when the body is [null]. *)
Theorem predict_failure_shown (s : Sys) (i : nat) (p : Pending) (o : Outcome) :
  reachable s ->
  nth_error (pending s) i = Some p ->
  handler p = HandlePredict ->
  (forall data, o <> Resolved true data) ->
  step s (Settle i o) = Some (settled s i p o)
  /\ prediction (view (settled s i p o)) = VNull
  /\ loading (view (settled s i p o)) = false
  /\ (forall m, o = Rejected m ->
        error (view (settled s i p o))
        = VStr ("Error connecting to server: " ++ m))
  /\ (forall data e, o = Resolved false data -> get data "error" = Ok e ->
        truthy e = true -> error (view (settled s i p o)) = e)
  /\ (forall data e, o = Resolved false data -> get data "error" = Ok e ->
        truthy e = false ->
        error (view (settled s i p o)) = VStr "Prediction failed")
  /\ (forall data m, o = Resolved false data -> get data "error" = Throw m ->
        error (view (settled s i p o))
        = VStr ("Error connecting to server: " ++ m)).
Proof.
  intros Hs Hi Hp Ho.
  destruct (predict_outstanding s i p Hs Hi Hp) as (_ & _ & Hpred).
  split; [now apply step_settle|].
  unfold settled. rewrite Hp.
  unfold settle_effects, handlePredict_settle, handlePredict_try,
    try_catch_finally, bind.
  destruct o as [m | [|] data].
  - cbn. repeat split; try assumption; try discriminate.
    now intros m' [= ->].
  - now destruct (Ho data).
  - destruct (get data "error") as [e | m] eqn:Hget; cbn;
      repeat split; try assumption; try discriminate.
    + intros data' e' [= <-] He' Ht. rewrite Hget in He'.
      injection He' as <-. unfold or_else. now rewrite Ht.
    + intros data' e' [= <-] He' Ht. rewrite Hget in He'.
      injection He' as <-. unfold or_else. now rewrite Ht.
    + intros data' m' [= <-] He'. congruence.
    + intros data' e' [= <-] He'. congruence.
    + intros data' e' [= <-] He'. congruence.
    + intros data' m' [= <-] He'. rewrite Hget in He'. now injection He' as <-.
Qed.

Lemma predict_failure_shown_witness :
  let s := after [ChangeUser "1"; ChangeMovie "10"; ClickPredict] in
  let o := Resolved false (VObj [("error"%string, VStr "user not found")]) in
  exists p,
    nth_error (pending s) 2 = Some p
    /\ prediction (view (settled s 2 p o)) = VNull
    /\ error (view (settled s 2 p o)) = VStr "user not found".
Proof.
  intros s o.
  exists (mkPending
            (mkRequest "POST" (API_BASE_URL ++ "/predict")
               (Some (VObj [("userId"%string, VNum (parseInt "1"));
                            ("movieId"%string, VNum (parseInt "10"))])))
            HandlePredict).
  split; [reflexivity|].
  destruct (predict_failure_shown s 2 _ o (reachable_after _) eq_refl eq_refl
              ltac:(discriminate))
    as (_ & Hpred & _ & _ & Hverb & _).
  split; [exact Hpred|].
  exact (Hverb _ _ eq_refl eq_refl eq_refl).
Defined.

(** ** The page refines the loop *)

Lemma page_step_loop (s s' : Sys) (a : Page.Action) :
  Page.step s a = Some s' ->
  step s (Page.event a) = Some s'
  /\ Page.pageThrows (view s) = false
  /\ Page.offered (view s) a = true.
Proof.
  unfold Page.step.
  destruct (Page.pageThrows (view s)); [discriminate|].
  destruct (Page.offered (view s) a); [|discriminate].
  auto.
Qed.

Lemma page_reachable_loop (s : Sys) : Page.reachable s -> reachable s.
Proof.
  induction 1 as [|s s' a _ IH Hstep].
  - exact reachable_mounted.
  - destruct (page_step_loop s s' a Hstep) as (Hloop & _).
    exact (reachable_step s s' _ IH Hloop).
Qed.

Lemma page_exec_reachable (acts : list Page.Action) (s s' : Sys) :
  Page.reachable s -> Page.exec acts s = Some s' -> Page.reachable s'.
Proof.
  revert s. induction acts as [|a rest IH]; simpl; intros s Hs He.
  - now injection He as <-.
  - destruct (Page.step s a) as [s1|] eqn:Hstep; [|discriminate].
    exact (IH s1 (Page.reachable_step s s1 a Hs Hstep) He).
Qed.

Lemma page_reachable_after (acts : list Page.Action) :
  Page.reachable (Page.after acts).
Proof.
  unfold Page.after. destruct (Page.exec acts mounted) as [s|] eqn:He.
  - exact (page_exec_reachable acts mounted s Page.reachable_mounted He).
  - exact Page.reachable_mounted.
Qed.

(** ** Rendering of the stored collections *)

Lemma cardsFrom_length (items : list value) :
  forall (start : nat) (cards : list Card),
    cardsFrom start items = Ok cards -> List.length cards = List.length items.
Proof.
  induction items as [|rec rest IH]; simpl; intros start cards H.
  - now injection H as <-.
  - destruct (card rec start) as [c|]; simpl in H; [|discriminate].
    destruct (cardsFrom (S start) rest) as [cs|] eqn:Hrest; simpl in H;
      [|discriminate].
    injection H as <-. simpl. f_equal. exact (IH _ _ Hrest).
Qed.

Lemma cardsFrom_nth (items : list value) :
  forall (start : nat) (cards : list Card) (i : nat) (rec : value),
    cardsFrom start items = Ok cards ->
    nth_error items i = Some rec ->
    exists c, nth_error cards i = Some c /\ card rec (start + i) = Ok c.
Proof.
  induction items as [|r rest IH]; simpl; intros start cards i rec H Hi.
  - destruct i; discriminate.
  - destruct (card r start) as [c|] eqn:Hc; simpl in H; [|discriminate].
    destruct (cardsFrom (S start) rest) as [cs|] eqn:Hrest; simpl in H;
      [|discriminate].
    injection H as <-. destruct i as [|i]; simpl in *.
    + injection Hi as <-. exists c. now rewrite Nat.add_0_r.
    + destruct (IH _ _ _ _ Hrest Hi) as (c' & Hn & Hc').
      exists c'. split; [exact Hn|].
      now replace (start + S i) with (S start + i) by lia.
Qed.

Lemma card_fields (rec : value) (index : nat) (c : Card) :
  card rec index = Ok c ->
  rank c = index + 1
  /\ get rec "movieId" = Ok (cardKey c)
  /\ get rec "title" = Ok (title c)
  /\ get rec "genres" = Ok (genres c)
  /\ get rec "predictedRating" = Ok (VNum (rating c))
  /\ repeat_length (round_count (rating c)) = Ok (stars c).
Proof.
  unfold card, bind. intros H.
  destruct (get rec "movieId") as [k|]; [|discriminate].
  destruct (get rec "title") as [t|]; [|discriminate].
  destruct (get rec "genres") as [g|]; [|discriminate].
  destruct (get rec "predictedRating") as [r|]; [|discriminate].
  destruct r; simpl in H; try discriminate.
  destruct (repeat_length (round_count n)) as [k'|] eqn:Hr; [|discriminate].
  injection H as <-. simpl. repeat split. exact Hr.
Qed.

(** C5: when the stored recommendations render, there is one card per
    element, in the order of the array: for every rank k from 1 to the
    length, the k-th card shows rank k and the fields of the element at index
    k - 1. *)
Theorem cards_keep_order (items : list value) (cards : list Card) :
  recommendationCards items = Ok cards ->
  List.length cards = List.length items
  /\ forall k : nat,
       1 <= k <= List.length items ->
       exists c rec,
         nth_error cards (k - 1) = Some c
         /\ nth_error items (k - 1) = Some rec
         /\ rank c = k
         /\ get rec "movieId" = Ok (cardKey c)
         /\ get rec "title" = Ok (title c)
         /\ get rec "genres" = Ok (genres c)
         /\ get rec "predictedRating" = Ok (VNum (rating c)).
Proof.
  unfold recommendationCards. intros H. split.
  - exact (cardsFrom_length _ _ _ H).
  - intros k Hk.
    destruct (nth_error items (k - 1)) as [rec|] eqn:Hrec.
    + destruct (cardsFrom_nth _ _ _ _ _ H Hrec) as (c & Hc & Hcard).
      destruct (card_fields _ _ _ Hcard) as (Hr & Hk' & Ht & Hg & Hp & _).
      exists c, rec. repeat split; try assumption. lia.
    + apply nth_error_None in Hrec. lia.
Qed.

Lemma cards_keep_order_witness :
  let rec1 := VObj [("movieId", VNum (num 7)); ("title", VStr "Heat");
                    ("genres", VStr "Crime"); ("predictedRating", VNum (num 4))]
                   %string in
  let rec2 := VObj [("movieId", VNum (num 3)); ("title", VStr "Alien");
                    ("genres", VStr "Horror"); ("predictedRating", VNum (num 5))]
                   %string in
  exists c1 c2,
    recommendationCards [rec1; rec2] = Ok [c1; c2]
    /\ rank c1 = 1 /\ title c1 = VStr "Heat"
    /\ rank c2 = 2 /\ title c2 = VStr "Alien".
Proof.
  intros rec1 rec2.
  exists (mkCard (VNum (num 7)) 1 (VStr "Heat") (VStr "Crime") (num 4) 4),
    (mkCard (VNum (num 3)) 2 (VStr "Alien") (VStr "Horror") (num 5) 5).
  split; [reflexivity|].
  destruct (cards_keep_order [rec1; rec2] _ eq_refl) as (_ & H).
  destruct (H 1 ltac:(simpl; lia)) as (c & r & Hc & Hr & Hrank & _ & Ht & _).
  destruct (H 2 ltac:(simpl; lia)) as (c' & r' & Hc' & Hr' & Hrank' & _ & Ht' & _).
  simpl in Hc, Hr, Hc', Hr'.
  injection Hc as <-. injection Hc' as <-.
  repeat split.
Defined.

Lemma movieOptions_nth (items : list value) :
  forall (opts : list SelectOption) (i : nat) (opt : SelectOption),
    mapM movieOption items = Ok opts ->
    nth_error opts i = Some opt ->
    exists movie, nth_error items i = Some movie /\ movieOption movie = Ok opt.
Proof.
  induction items as [|m rest IH]; simpl; intros opts i opt H Hi.
  - injection H as <-. destruct i; discriminate.
  - destruct (movieOption m) as [o|] eqn:Hm; simpl in H; [|discriminate].
    destruct (mapM movieOption rest) as [os|] eqn:Hrest; simpl in H;
      [|discriminate].
    injection H as <-. destruct i as [|i]; simpl in *.
    + injection Hi as <-. now exists m.
    + exact (IH _ _ _ eq_refl Hi).
Qed.

Lemma mapM_length {A B : Type} (f : A -> result B) (l : list A) :
  forall l', mapM f l = Ok l' -> List.length l' = List.length l.
Proof.
  induction l as [|a rest IH]; simpl; intros l' H.
  - now injection H as <-.
  - destruct (f a); simpl in H; [|discriminate].
    destruct (mapM f rest) as [bs|]; simpl in H; [|discriminate].
    injection H as <-. simpl. f_equal. now apply IH.
Qed.

Lemma user_options_prefix (items : list value) :
  List.length (userOptions items) = Nat.min 100 (List.length items)
  /\ (forall i opt,
        nth_error (userOptions items) i = Some opt ->
        i < 100
        /\ nth_error items i = Some (optionValue opt)
        /\ opt = mkOption (optionValue opt) (optionValue opt)
                   [VStr "User "; optionValue opt])
  /\ (forall i, 100 <= i -> nth_error (userOptions items) i = None).
Proof.
  assert (List.length (userOptions items) = Nat.min 100 (List.length items))
    as Hlen by (unfold userOptions; now rewrite length_map, length_firstn).
  split; [exact Hlen | split].
  - intros i opt Hi.
    assert (i < 100) as Hlt.
    { assert (i < List.length (userOptions items))
        by (apply nth_error_Some; congruence). lia. }
    unfold userOptions in Hi. rewrite nth_error_map in Hi.
    rewrite nth_error_firstn in Hi.
    destruct (Nat.ltb_spec i 100); [|lia].
    destruct (nth_error items i) as [u|]; simpl in Hi; [|discriminate].
    injection Hi as <-. simpl. auto.
  - intros i Hi. apply nth_error_None. lia.
Qed.

Lemma movie_options_prefix (items : list value) (opts : list SelectOption) :
  movieOptions items = Ok opts ->
  List.length opts = Nat.min 500 (List.length items)
  /\ (forall i opt,
        nth_error opts i = Some opt ->
        i < 500
        /\ exists movie,
             nth_error items i = Some movie
             /\ get movie "movieId" = Ok (optionValue opt)
             /\ get movie "title" = Ok (hd VUndefined (optionLabel opt)))
  /\ (forall i, 500 <= i -> nth_error opts i = None).
Proof.
  intros H. unfold movieOptions in H.
  pose proof (mapM_length _ _ _ H) as Hl. rewrite length_firstn in Hl.
  split; [exact Hl | split].
  - intros i opt Hi.
    assert (i < 500) as Hlt.
    { assert (i < List.length opts) by (apply nth_error_Some; congruence).
      lia. }
    split; [exact Hlt|].
    destruct (movieOptions_nth _ _ _ _ H Hi) as (movie & Hm & Hopt).
    rewrite nth_error_firstn in Hm.
    destruct (Nat.ltb_spec i 500); [|lia].
    exists movie. split; [exact Hm|].
    unfold movieOption, bind in Hopt.
    destruct (get movie "movieId") as [k|]; [|discriminate].
    destruct (get movie "title") as [t|]; [|discriminate].
    injection Hopt as <-. simpl. auto.
  - intros i Hi. apply nth_error_None. lia.
Qed.

Lemma movie_options_built (items : list value) :
  Forall (fun movie => movie <> VNull /\ movie <> VUndefined)
    (firstn 500 items) ->
  exists opts, movieOptions items = Ok opts.
Proof.
  unfold movieOptions. generalize (firstn 500 items). intros l H.
  induction H as [|movie l (Hn & Hu) _ (opts & IH)]; simpl; [eauto|].
  rewrite IH.
  assert (exists opt, movieOption movie = Ok opt) as (opt & ->).
  { unfold movieOption, bind.
    destruct movie; try congruence; simpl; eauto;
      destruct (lookup "movieId" props); destruct (lookup "title" props);
      eauto. }
  simpl. eauto.
Qed.

(** The selections change only through their own select. *)
Lemma selections_kept (s s' : Sys) (ev : Event) :
  step s ev = Some s' ->
  (forall v, ev <> ChangeUser v) ->
  (forall v, ev <> ChangeMovie v) ->
  selectedUser (view s') = selectedUser (view s)
  /\ selectedMovie (view s') = selectedMovie (view s).
Proof.
  intros Hstep Hu Hm.
  destruct ev as [t | v | v | v | | | i o]; simpl in Hstep.
  - now injection Hstep as <-.
  - now destruct (Hu v).
  - now destruct (Hm v).
  - destruct (predictSection (view s)); [discriminate|].
    now injection Hstep as <-.
  - destruct (_ && _); [|discriminate]. injection Hstep as <-.
    rewrite view_click. unfold handlePredict_click.
    now destruct (_ || _).
  - destruct (_ && _); [|discriminate]. injection Hstep as <-.
    rewrite view_click. unfold handleRecommend_click.
    now destruct (negb _).
  - destruct (nth_error (pending s) i) as [p|]; [|discriminate].
    injection Hstep as <-. unfold settled. simpl view.
    generalize (handler p). intros h.
    settle_cases h o; split; reflexivity.
Qed.

Lemma picked_option (options : list SelectOption) (k : option nat)
    (v : string) :
  Page.picked options k v = true ->
  match k with
  | None => v = EmptyString
  | Some i =>
      exists opt,
        nth_error options i = Some opt
        /\ Page.accepts (optionValue opt) v = true
  end.
Proof.
  unfold Page.picked. destruct k as [i|].
  - destruct (nth_error options i) as [opt|]; [eauto | discriminate].
  - intros H. now apply String.eqb_eq in H.
Qed.

(** C10: the user select offers one option per element of the first 100
    user ids, in order, and nothing for an index from 100 on.  The options of
    the movie select are built whenever none of the first 500 movies is
    [null]; there is then one per element of the first 500, in order, and
    nothing for an index from 500 on.  On the page a selection is made by
    picking one of these options or the placeholder: the value stored is
    empty, or the one delivered for an element at an index below 100 (500),
    and no other action changes a selection. *)
Theorem options_are_prefixes (items : list value) :
  (List.length (userOptions items) = Nat.min 100 (List.length items)
   /\ (forall i opt,
         nth_error (userOptions items) i = Some opt ->
         i < 100
         /\ nth_error items i = Some (optionValue opt)
         /\ opt = mkOption (optionValue opt) (optionValue opt)
                    [VStr "User "; optionValue opt])
   /\ (forall i, 100 <= i -> nth_error (userOptions items) i = None))
  /\ (forall opts,
        movieOptions items = Ok opts ->
        List.length opts = Nat.min 500 (List.length items)
        /\ (forall i opt,
              nth_error opts i = Some opt ->
              i < 500
              /\ exists movie,
                   nth_error items i = Some movie
                   /\ get movie "movieId" = Ok (optionValue opt)
                   /\ get movie "title" = Ok (hd VUndefined (optionLabel opt)))
        /\ (forall i, 500 <= i -> nth_error opts i = None))
  /\ (Forall (fun movie => movie <> VNull /\ movie <> VUndefined)
        (firstn 500 items) ->
      exists opts, movieOptions items = Ok opts)
  /\ (forall (s s' : Sys) (k : option nat) (v : string),
        users (view s) = VArr items ->
        Page.step s (Page.PickUser k v) = Some s' ->
        selectedUser (view s') = v
        /\ match k with
           | None => v = EmptyString
           | Some i =>
               i < 100
               /\ exists id,
                    nth_error items i = Some id /\ Page.accepts id v = true
           end)
  /\ (forall (s s' : Sys) (k : option nat) (v : string),
        movies (view s) = VArr items ->
        Page.step s (Page.PickMovie k v) = Some s' ->
        selectedMovie (view s') = v
        /\ match k with
           | None => v = EmptyString
           | Some i =>
               i < 500
               /\ exists movie id,
                    nth_error items i = Some movie
                    /\ get movie "movieId" = Ok id
                    /\ Page.accepts id v = true
           end)
  /\ (forall (s s' : Sys) (a : Page.Action),
        Page.step s a = Some s' ->
        (Page.picksUser a = false ->
         selectedUser (view s') = selectedUser (view s))
        /\ (Page.picksMovie a = false ->
            selectedMovie (view s') = selectedMovie (view s))).
Proof.
  split; [exact (user_options_prefix items)|].
  split; [exact (movie_options_prefix items)|].
  split; [exact (movie_options_built items)|].
  split; [|split].
  - intros s s' k v Hitems Hstep.
    destruct (page_step_loop _ _ _ Hstep) as (Hloop & _ & Hoff).
    simpl in Hloop. injection Hloop as <-.
    split; [reflexivity|].
    simpl in Hoff. rewrite Hitems in Hoff.
    apply picked_option in Hoff. destruct k as [i|]; [|exact Hoff].
    destruct Hoff as (opt & Hopt & Hacc).
    destruct (user_options_prefix items) as (_ & Hnth & _).
    destruct (Hnth i opt Hopt) as (Hlt & Hid & _). eauto.
  - intros s s' k v Hitems Hstep.
    destruct (page_step_loop _ _ _ Hstep) as (Hloop & _ & Hoff).
    simpl in Hloop.
    destruct (predictSection (view s)); [|discriminate].
    injection Hloop as <-.
    split; [reflexivity|].
    simpl in Hoff. rewrite Hitems in Hoff.
    destruct (movieOptions items) as [opts|] eqn:Hopts; [|discriminate].
    apply picked_option in Hoff. destruct k as [i|]; [|exact Hoff].
    destruct Hoff as (opt & Hopt & Hacc).
    destruct (movie_options_prefix items opts Hopts) as (_ & Hnth & _).
    destruct (Hnth i opt Hopt) as (Hlt & movie & Hm & Hid & _). eauto 6.
  - intros s s' a Hstep.
    destruct (page_step_loop _ _ _ Hstep) as (Hloop & _).
    destruct a as [t | k v | k v | v | | | i o];
      split; intros Hpick; try discriminate Hpick;
      try (apply (selections_kept _ _ _ Hloop); intros; discriminate);
      simpl in Hloop.
    + now injection Hloop as <-.
    + destruct (predictSection (view s)); [|discriminate].
      now injection Hloop as <-.
Qed.

Lemma options_are_prefixes_witness :
  let ids := map (fun n => VNum (num (Z.of_nat n))) (seq 1 120) in
  let films :=
    map (fun n => VObj [("movieId"%string, VNum (num (Z.of_nat n)));
                        ("title"%string, VStr "Heat")])
      (seq 1 502) in
  let s := Page.after
             [Page.Arrive 0 (Resolved true (VObj [("userIds"%string, VArr ids)]));
              Page.Arrive 0 (Resolved true (VObj [("movies"%string, VArr films)]))]
  in
  List.length (userOptions ids) = 100
  /\ nth_error (userOptions ids) 100 = None
  /\ nth_error ids 100 = Some (VNum (num 101))
  /\ (exists opts,
        movieOptions films = Ok opts
        /\ List.length opts = 500
        /\ nth_error opts 500 = None)
  /\ (exists s',
        Page.step s (Page.PickUser (Some 99) "100") = Some s'
        /\ selectedUser (view s') = "100"%string)
  /\ (forall k, Page.step s (Page.PickUser k "101") = None)
  /\ (exists s',
        Page.step s (Page.PickMovie (Some 499) "500") = Some s'
        /\ selectedMovie (view s') = "500"%string)
  /\ (forall v, Page.step s (Page.PickMovie (Some 500) v) = None).
Proof.
  intros ids films s.
  destruct (options_are_prefixes ids)
    as ((Hlen & _ & Hnone) & _ & _ & Hpick & _).
  destruct (options_are_prefixes films)
    as (_ & Hprefix & Hbuilt & _ & Hfilm & _).
  split; [exact Hlen|].
  split; [exact (Hnone 100 (le_n 100))|].
  split; [reflexivity|].
  split.
  { destruct Hbuilt as (opts & Hopts).
    - apply Forall_forall. intros movie Hin.
      assert (In movie films) as Hin'.
      { rewrite <- (firstn_skipn 500 films). apply in_or_app. now left. }
      apply in_map_iff in Hin'. destruct Hin' as (n & <- & _).
      split; discriminate.
    - exists opts. destruct (Hprefix opts Hopts) as (Hl & _ & Hno).
      split; [exact Hopts|]. split; [|exact (Hno 500 (le_n 500))].
      rewrite Hl. vm_compute. reflexivity. }
  assert (users (view s) = VArr ids) as Hids by (vm_compute; reflexivity).
  assert (movies (view s) = VArr films) as Hfilms by (vm_compute; reflexivity).
  split.
  { destruct (Page.step s (Page.PickUser (Some 99) "100")) as [s'|] eqn:Hstep.
    - exists s'. split; [reflexivity|].
      exact (proj1 (Hpick s s' (Some 99) "100"%string Hids Hstep)).
    - vm_compute in Hstep. discriminate. }
  split.
  { intros k.
    destruct (Page.step s (Page.PickUser k "101")) as [s'|] eqn:Hstep;
      [|reflexivity].
    exfalso.
    destruct (Hpick s s' k "101"%string Hids Hstep) as (_ & Hk).
    destruct k as [i|]; [|discriminate].
    destruct Hk as (Hlt & id & Hid & Hacc).
    do 100 (destruct i as [|i];
            [simpl in Hid; injection Hid as <-; vm_compute in Hacc;
             discriminate|]).
    lia. }
  split.
  { destruct (Page.step s (Page.PickMovie (Some 499) "500")) as [s'|] eqn:Hstep.
    - exists s'. split; [reflexivity|].
      exact (proj1 (Hfilm s s' (Some 499) "500"%string Hfilms Hstep)).
    - vm_compute in Hstep. discriminate. }
  intros v.
  destruct (Page.step s (Page.PickMovie (Some 500) v)) as [s'|] eqn:Hstep;
    [|reflexivity].
  exfalso.
  destruct (Hfilm s s' (Some 500) v Hfilms Hstep) as (_ & Hlt & _). lia.
Defined.

(** ** What a submit click resets *)

(** C6, as written, fails: recommendations obtained for user 1 are still
    stored after a validated predict click.  The run is one of the page: both
    reference lists have arrived, every selection is an option on the page,
    and the list obtained renders. *)
Lemma all_results_reset_fails : ~ Stated.all_results_reset.
Proof.
  intros H.
  pose (ids := VObj [("userIds"%string, VArr [VNum (num 1); VNum (num 2)])]).
  pose (films :=
          VObj [("movies"%string,
                 VArr [VObj [("movieId"%string, VNum (num 10));
                             ("title"%string, VStr "Heat");
                             ("genres"%string, VStr "Crime")]])]).
  pose (recs :=
          VObj [("recommendations"%string,
                 VArr [VObj [("movieId"%string, VNum (num 7));
                             ("title"%string, VStr "Alien");
                             ("genres"%string, VStr "Horror");
                             ("predictedRating"%string, VNum (num 4))]])]).
  pose (acts := [Page.Arrive 0 (Resolved true ids);
                 Page.Arrive 0 (Resolved true films);
                 Page.PickUser (Some 0) "1";
                 Page.PressTab RecommendTab;
                 Page.PressRecommend;
                 Page.Arrive 0 (Resolved true recs);
                 Page.PressTab PredictTab;
                 Page.PickMovie (Some 0) "10"]).
  destruct (H (Page.after acts) (Page.after (acts ++ [Page.PressPredict]))
              (page_reachable_after _))
    as (_ & Hrecs & _).
  - left. split; [vm_compute; reflexivity | vm_compute; discriminate].
  - vm_compute in Hrecs. discriminate.
Qed.

(** C6, amended: a validated click of [handlePredict] issues its request
    from a state with [loading] on, no error and no prediction, and leaves
    the stored recommendations as they were; a validated click of
    [handleRecommend] issues its request from a state with [loading] on, no
    error and the empty recommendations, and leaves the stored prediction as
    it was.  Every other cell is untouched.  Right after the click the
    section on the page is the one of the button clicked, so the result the
    page has room for is the one that was reset. *)
Theorem click_resets_own_result (st : State) :
  (selectedUser st <> EmptyString -> selectedMovie st <> EmptyString ->
   snd (handlePredict_click st) <> None
   /\ run (fst (handlePredict_click st)) st
      = mkState (activeTab st) (users st) (movies st) (selectedUser st)
          (selectedMovie st) VNull (recommendations st) (topN st) true VNull)
  /\ (selectedUser st <> EmptyString ->
      snd (handleRecommend_click st) <> None
      /\ run (fst (handleRecommend_click st)) st
         = mkState (activeTab st) (users st) (movies st) (selectedUser st)
             (selectedMovie st) (prediction st) (VArr []) (topN st) true VNull)
  /\ (forall s s' : Sys,
        view s = st ->
        step s ClickPredict = Some s' ->
        snd (handlePredict_click st) <> None ->
        predictSection (view s') = true
        /\ Page.shownResult (view s') = VNull)
  /\ (forall s s' : Sys,
        view s = st ->
        step s ClickRecommend = Some s' ->
        snd (handleRecommend_click st) <> None ->
        predictSection (view s') = false
        /\ Page.shownResult (view s') = VArr []).
Proof.
  split; [|split; [|split]].
  - intros Hu Hm. unfold handlePredict_click.
    rewrite (nonempty_truthy _ Hu), (nonempty_truthy _ Hm). simpl.
    split; [discriminate | reflexivity].
  - intros Hu. unfold handleRecommend_click.
    rewrite (nonempty_truthy _ Hu). simpl.
    split; [discriminate | reflexivity].
  - intros s s' <- Hstep Hreq. simpl in Hstep.
    destruct (predictSection (view s)) eqn:Htab; [|discriminate].
    destruct (negb (buttonDisabled (view s))); [|discriminate].
    injection Hstep as <-. unfold Page.shownResult, predictSection in *.
    rewrite view_click. unfold handlePredict_click in *.
    destruct (negb (truthy (VStr (selectedUser (view s))))
              || negb (truthy (VStr (selectedMovie (view s)))));
      [now destruct Hreq|].
    simpl. rewrite Htab. auto.
  - intros s s' <- Hstep Hreq. simpl in Hstep.
    destruct (predictSection (view s)) eqn:Htab; [discriminate|].
    destruct (negb (buttonDisabled (view s))); [|discriminate].
    injection Hstep as <-. unfold Page.shownResult, predictSection in *.
    rewrite view_click. unfold handleRecommend_click in *.
    destruct (negb (truthy (VStr (selectedUser (view s)))));
      [now destruct Hreq|].
    simpl. rewrite Htab. auto.
Qed.

Lemma click_resets_own_result_witness :
  let st := mkState "predict" (VArr []) (VArr []) "1" "10" (VStr "old")
              (VArr [VStr "kept"]) (num 10) false (VStr "old error") in
  let st' := mkState "recommend" (VArr []) (VArr []) "1" "10" (VStr "old")
               (VArr [VStr "stale"]) (num 10) false (VStr "old error") in
  let s := mkSys st [] [] in
  let s' := mkSys st' [] [] in
  recommendations (run (fst (handlePredict_click st)) st) = VArr [VStr "kept"]
  /\ prediction (run (fst (handlePredict_click st)) st) = VNull
  /\ prediction (run (fst (handleRecommend_click st)) st) = VStr "old"
  /\ recommendations (run (fst (handleRecommend_click st)) st) = VArr []
  /\ Page.shownResult (view (click HandlePredict handlePredict_click s))
     = VNull
  /\ Page.shownResult (view (click HandleRecommend handleRecommend_click s'))
     = VArr [].
Proof.
  intros st st' s s'.
  destruct (click_resets_own_result st) as (Hp & Hr & Hshown & _).
  destruct (click_resets_own_result st') as (_ & _ & _ & Hshown').
  destruct (Hp ltac:(discriminate) ltac:(discriminate)) as (_ & ->).
  destruct (Hr ltac:(discriminate)) as (_ & ->).
  split; [reflexivity|]. split; [reflexivity|].
  split; [reflexivity|]. split; [reflexivity|].
  split.
  - exact (proj2 (Hshown s (click HandlePredict handlePredict_click s) eq_refl
                    eq_refl ltac:(discriminate))).
  - exact (proj2 (Hshown' s' (click HandleRecommend handleRecommend_click s')
                    eq_refl eq_refl ltac:(discriminate))).
Defined.

(** ** The stored error and the next user action *)

(** C7, as written, fails: after a click on the predict button with nothing
    selected, choosing a user leaves the validation message stored. *)
Lemma next_action_clears_error_fails : ~ Stated.next_action_clears_error.
Proof.
  intros H.
  apply (H (after [ClickPredict]) (after [ClickPredict; ChangeUser "1"])
           (ChangeUser "1") (reachable_after _)).
  - vm_compute. discriminate.
  - reflexivity.
  - vm_compute. reflexivity.
  - vm_compute. reflexivity.
Qed.

(** C7, amended: a submit click that passes validation leaves no error; one
    that fails validation leaves its validation message; a tab click or a
    change of a selection or of the number input leaves [error] as it
    was. *)
Theorem error_after_user_event (s s' : Sys) (ev : Event) :
  step s ev = Some s' ->
  userEvent ev = true ->
  match ev with
  | ClickPredict =>
      error (view s')
      = if negb (String.eqb (selectedUser (view s)) "")
           && negb (String.eqb (selectedMovie (view s)) "")
        then VNull
        else VStr "Please select both user and movie"
  | ClickRecommend =>
      error (view s')
      = if negb (String.eqb (selectedUser (view s)) "")
        then VNull
        else VStr "Please select a user"
  | _ => error (view s') = error (view s)
  end.
Proof.
  intros Hstep Hev.
  destruct ev as [t | v | v | v | | | i o]; simpl in Hstep;
    try discriminate Hev.
  - now injection Hstep as <-.
  - now injection Hstep as <-.
  - destruct (predictSection (view s)); [|discriminate].
    now injection Hstep as <-.
  - destruct (predictSection (view s)); [discriminate|].
    now injection Hstep as <-.
  - destruct (predictSection (view s) && negb (buttonDisabled (view s)));
      [|discriminate].
    injection Hstep as <-. rewrite view_click.
    unfold handlePredict_click. simpl.
    destruct (String.eqb (selectedUser (view s)) "");
      destruct (String.eqb (selectedMovie (view s)) ""); reflexivity.
  - destruct (negb (predictSection (view s)) && negb (buttonDisabled (view s)));
      [|discriminate].
    injection Hstep as <-. rewrite view_click.
    unfold handleRecommend_click. simpl.
    destruct (String.eqb (selectedUser (view s)) ""); reflexivity.
Qed.

Lemma error_after_user_event_witness :
  error (view (after [ClickPredict; ClickTab RecommendTab]))
  = VStr "Please select both user and movie"
  /\ error (view (after [ClickPredict; ChangeUser "1"; ChangeMovie "10";
                         ClickPredict]))
     = VNull.
Proof.
  split.
  - assert (step (after [ClickPredict]) (ClickTab RecommendTab)
            = Some (after [ClickPredict; ClickTab RecommendTab])) as Hstep
      by (vm_compute; reflexivity).
    rewrite (error_after_user_event _ _ _ Hstep eq_refl).
    vm_compute. reflexivity.
  - assert (step (after [ClickPredict; ChangeUser "1"; ChangeMovie "10"])
              ClickPredict
            = Some (after [ClickPredict; ChangeUser "1"; ChangeMovie "10";
                           ClickPredict])) as Hstep
      by (vm_compute; reflexivity).
    rewrite (error_after_user_event _ _ _ Hstep eq_refl).
    vm_compute. reflexivity.
Defined.

(** ** Reference data *)

(** While the fetch of a reference list is outstanding, the list's cell
    holds the empty array it started with. *)
Lemma users_outstanding (s : Sys) (i : nat) (p : Pending) :
  reachable s ->
  nth_error (pending s) i = Some p ->
  handler p = FetchUsers ->
  users (view s) = VArr [].
Proof.
  intros Hs Hi Hp.
  destruct (invariant_reachable s Hs) as (_ & Hu & _).
  unfold users_inv, outstanding in Hu.
  assert (isUsers (handler p) = true) as Hf by now rewrite Hp.
  pose proof (filter_nth_nonempty (fun q => isUsers (handler q)) _ _ _ Hi Hf).
  destruct (filter _ (pending s)) as [|q [|q' l]];
    [congruence | assumption | contradiction].
Qed.

Lemma movies_outstanding (s : Sys) (i : nat) (p : Pending) :
  reachable s ->
  nth_error (pending s) i = Some p ->
  handler p = FetchMovies ->
  movies (view s) = VArr [].
Proof.
  intros Hs Hi Hp.
  destruct (invariant_reachable s Hs) as (_ & _ & Hm).
  unfold movies_inv, outstanding in Hm.
  assert (isMovies (handler p) = true) as Hf by now rewrite Hp.
  pose proof (filter_nth_nonempty (fun q => isMovies (handler q)) _ _ _ Hi Hf).
  destruct (filter _ (pending s)) as [|q [|q' l]];
    [congruence | assumption | contradiction].
Qed.

(** C8: when the fetch of a reference list brings no list (the request or
    the parse of its body is rejected, the body is [null], or the body has
    nothing truthy under the list's key), the state after it is the state
    before it: the list's cell is the empty array, the other list's cell and
    [error] are as they were.  A rejection or a [null] body is written to the
    console, and the other outstanding requests stay outstanding. *)
Theorem reference_fetch_failure (s : Sys) (i : nat) (p : Pending) (o : Outcome) :
  reachable s ->
  nth_error (pending s) i = Some p ->
  (handler p = FetchUsers /\ brings_no_list "userIds" o)
  \/ (handler p = FetchMovies /\ brings_no_list "movies" o) ->
  step s (Settle i o) = Some (settled s i p o)
  /\ view (settled s i p o) = view s
  /\ (handler p = FetchUsers -> users (view (settled s i p o)) = VArr [])
  /\ (handler p = FetchMovies -> movies (view (settled s i p o)) = VArr [])
  /\ error (view (settled s i p o)) = error (view s)
  /\ pending (settled s i p o) = remove_nth i (pending s)
  /\ (forall m, fetchUsers_try o = Throw m -> handler p = FetchUsers ->
        console (settled s i p o)
        = console s ++ [("Error fetching users:"%string, m)])
  /\ (forall m, fetchMovies_try o = Throw m -> handler p = FetchMovies ->
        console (settled s i p o)
        = console s ++ [("Error fetching movies:"%string, m)]).
Proof.
  intros Hs Hi Hfail.
  split; [now apply step_settle|].
  assert (view (settled s i p o) = view s) as Hview.
  { destruct Hfail as [(Hp & Hno) | (Hp & Hno)].
    - pose proof (users_outstanding s i p Hs Hi Hp) as Hu.
      unfold settled. rewrite Hp. simpl view.
      unfold settle_effects, fetchUsers_settle, fetchUsers_try,
        try_catch_finally, bind, brings_no_list in *.
      destruct o as [m | ok data]; [reflexivity|].
      destruct (get data "userIds") as [ids | m]; [|reflexivity].
      unfold or_else. rewrite Hno. cbn. rewrite <- Hu.
      now destruct (view s).
    - pose proof (movies_outstanding s i p Hs Hi Hp) as Hm.
      unfold settled. rewrite Hp. simpl view.
      unfold settle_effects, fetchMovies_settle, fetchMovies_try,
        try_catch_finally, bind, brings_no_list in *.
      destruct o as [m | ok data]; [reflexivity|].
      destruct (get data "movies") as [ms | m]; [|reflexivity].
      unfold or_else. rewrite Hno. cbn. rewrite <- Hm.
      now destruct (view s). }
  rewrite Hview.
  split; [reflexivity|].
  split; [intros Hp; exact (users_outstanding s i p Hs Hi Hp)|].
  split; [intros Hp; exact (movies_outstanding s i p Hs Hi Hp)|].
  split; [reflexivity|].
  split; [reflexivity|].
  split; intros m Hm Hp; unfold settled; rewrite Hp; simpl;
    [unfold fetchUsers_settle | unfold fetchMovies_settle];
    rewrite Hm; reflexivity.
Qed.

Lemma reference_fetch_failure_witness :
  let p := mkPending fetchUsers_request FetchUsers in
  let o := Rejected "Failed to fetch" in
  view (settled mounted 0 p o) = initial
  /\ users (view (settled mounted 0 p o)) = VArr []
  /\ console (settled mounted 0 p o)
     = [("Error fetching users:"%string, "Failed to fetch"%string)]
  /\ map handler (pending (settled mounted 0 p o)) = [FetchMovies].
Proof.
  intros p o.
  destruct (reference_fetch_failure mounted 0 p o reachable_mounted eq_refl
              (or_introl (conj eq_refl I)))
    as (_ & Hview & Hu & _ & _ & Hpend & Hlog & _).
  split; [exact Hview|].
  split; [exact (Hu eq_refl)|].
  split; [exact (Hlog _ eq_refl eq_refl)|].
  rewrite Hpend. reflexivity.
Defined.

(** ** The loading flag *)

(** C9: in every reachable state, [loading] is on exactly when a predict or
    recommend request is outstanding, and there is at most one; while it is
    on, neither submit button accepts a click; when the outstanding request
    settles, whatever the outcome, [loading] is off and no such request is
    outstanding. *)
Theorem loading_tracks_request (s : Sys) :
  reachable s ->
  (loading (view s) = true <-> exists p, outstanding isAction s = [p])
  /\ (loading (view s) = false <-> outstanding isAction s = [])
  /\ List.length (outstanding isAction s) <= 1
  /\ (loading (view s) = true ->
      buttonDisabled (view s) = true
      /\ step s ClickPredict = None /\ step s ClickRecommend = None)
  /\ (forall i p o,
        nth_error (pending s) i = Some p ->
        isAction (handler p) = true ->
        step s (Settle i o) = Some (settled s i p o)
        /\ loading (view (settled s i p o)) = false
        /\ outstanding isAction (settled s i p o) = []).
Proof.
  intros Hs.
  destruct (invariant_reachable s Hs) as (Ha & _).
  unfold actions_inv in Ha.
  split; [|split; [|split; [|split]]].
  - destruct (outstanding isAction s) as [|p [|q l]]; [| |contradiction].
    + split; [congruence | intros (p & Hp); discriminate].
    + destruct Ha as (Hl & _). split; [eauto | auto].
  - destruct (outstanding isAction s) as [|p [|q l]]; [| |contradiction].
    + split; auto.
    + destruct Ha as (Hl & _). split; [congruence | discriminate].
  - destruct (outstanding isAction s) as [|p [|q l]]; [| |contradiction];
      simpl; lia.
  - intros Hl. unfold buttonDisabled. simpl. unfold buttonDisabled.
    rewrite Hl. simpl. rewrite !andb_false_r. auto.
  - intros i p o Hi Hp.
    split; [now apply step_settle|].
    split; [now apply settle_action_loading|].
    unfold outstanding in *. simpl.
    pose proof (filter_nth_nonempty (fun q => isAction (handler q)) _ _ _ Hi Hp)
      as Hne.
    destruct (filter _ (pending s)) as [|q [|q' l]] eqn:Hf;
      [congruence | | contradiction].
    now destruct
      (filter_remove_only (fun q => isAction (handler q)) _ _ _ _ Hi Hp Hf).
Qed.

Lemma loading_tracks_request_witness :
  let s := after [ChangeUser "1"; ChangeMovie "10"; ClickPredict] in
  loading (view s) = true
  /\ List.length (outstanding isAction s) = 1
  /\ step s ClickPredict = None
  /\ loading (view (after [ChangeUser "1"; ChangeMovie "10"; ClickPredict;
                           Settle 2 (Rejected "Failed to fetch")]))
     = false.
Proof.
  intros s.
  destruct (loading_tracks_request s (reachable_after _))
    as (Hon & _ & _ & Hdis & Hsettle).
  assert (loading (view s) = true) as Hl.
  { apply Hon. eexists. vm_compute. reflexivity. }
  split; [exact Hl|].
  split; [vm_compute; reflexivity|].
  split; [exact (proj1 (proj2 (Hdis Hl)))|].
  assert (nth_error (pending s) 2
          = Some (mkPending
                    (mkRequest "POST" (API_BASE_URL ++ "/predict")
                       (Some (VObj [("userId"%string, VNum (parseInt "1"));
                                    ("movieId"%string, VNum (parseInt "10"))])))
                    HandlePredict)) as Hi by (vm_compute; reflexivity).
  destruct (Hsettle 2 _ (Rejected "Failed to fetch") Hi eq_refl)
    as (_ & Hoff & _).
  vm_compute. reflexivity.
Defined.

(** ** Further properties: [handleRecommend] *)

Ltac settle_done :=
  intros;
  repeat match goal with
    | H : Ok _ = Ok _ |- _ => injection H as H; subst
    | H : Throw _ = Throw _ |- _ => injection H as H; subst
    | H : Resolved _ _ = Resolved _ _ |- _ => injection H as H; subst
    | H : Rejected _ = Rejected _ |- _ => injection H as H; subst
    | H : Ok _ = Throw _ |- _ => discriminate H
    | H : Throw _ = Ok _ |- _ => discriminate H
    | H : Rejected _ = Resolved _ _ |- _ => discriminate H
    | H : Resolved _ _ = Rejected _ |- _ => discriminate H
    end;
  unfold or_else;
  repeat match goal with
    | H : truthy _ = _ |- _ => rewrite H
    end;
  cbn; auto.

Lemma action_outstanding (s : Sys) (i : nat) (p : Pending) :
  reachable s ->
  nth_error (pending s) i = Some p ->
  isAction (handler p) = true ->
  loading (view s) = true
  /\ error (view s) = VNull
  /\ (handler p = HandlePredict -> prediction (view s) = VNull)
  /\ (handler p = HandleRecommend -> recommendations (view s) = VArr []).
Proof.
  intros Hs Hi Hact.
  destruct (invariant_reachable s Hs) as (Ha & _).
  unfold actions_inv, outstanding in Ha.
  pose proof (filter_nth_nonempty (fun q => isAction (handler q)) _ _ _ Hi Hact)
    as Hne.
  destruct (filter _ (pending s)) as [|q [|q' l]] eqn:Hf;
    [congruence | | contradiction].
  destruct (filter_remove_only (fun q => isAction (handler q)) _ _ _ _ Hi Hact Hf)
    as [-> _].
  exact Ha.
Qed.

(** X1: with no user selected, [handleRecommend] issues no request and leaves
    the state it found with [error] replaced by its validation message; the
    selected movie plays no part. *)
Theorem recommend_validation (s : Sys) :
  selectedUser (view s) = EmptyString ->
  handleRecommend_click (view s)
  = ([SetError (VStr "Please select a user")], None)
  /\ pending (click HandleRecommend handleRecommend_click s) = pending s
  /\ console (click HandleRecommend handleRecommend_click s) = console s
  /\ view (click HandleRecommend handleRecommend_click s)
     = mkState (activeTab (view s)) (users (view s)) (movies (view s))
         (selectedUser (view s)) (selectedMovie (view s))
         (prediction (view s)) (recommendations (view s)) (topN (view s))
         (loading (view s)) (VStr "Please select a user").
Proof.
  intros H.
  assert (handleRecommend_click (view s)
          = ([SetError (VStr "Please select a user")], None)) as Hclick
    by (unfold handleRecommend_click; now rewrite H).
  split; [exact Hclick|].
  unfold click. rewrite Hclick. simpl. now rewrite !app_nil_r.
Qed.

Lemma recommend_validation_witness :
  let s := after [ClickTab RecommendTab] in
  pending (click HandleRecommend handleRecommend_click s) = pending s
  /\ error (view (click HandleRecommend handleRecommend_click s))
     = VStr "Please select a user".
Proof.
  intros s.
  destruct (recommend_validation s eq_refl) as (_ & Hp & _ & Hv).
  split; [exact Hp | now rewrite Hv].
Defined.

(** X2: when an outstanding recommend request ends in a success response, the
    state is left with [loading] off and the prediction untouched, and
    - the body's [recommendations] stored as they are, with no error, when
      they are truthy;
    - the empty array stored, with no error, when the body has no
      [recommendations] or falsy ones;
    - the empty array and the prefixed TypeError message in [error], when
      the body is [null]. *)
Theorem recommend_success (s : Sys) (i : nat) (p : Pending) (data : value) :
  reachable s ->
  nth_error (pending s) i = Some p ->
  handler p = HandleRecommend ->
  loading (view (settled s i p (Resolved true data))) = false
  /\ prediction (view (settled s i p (Resolved true data)))
     = prediction (view s)
  /\ (forall rs, get data "recommendations" = Ok rs -> truthy rs = true ->
        recommendations (view (settled s i p (Resolved true data))) = rs
        /\ error (view (settled s i p (Resolved true data))) = VNull)
  /\ (forall rs, get data "recommendations" = Ok rs -> truthy rs = false ->
        recommendations (view (settled s i p (Resolved true data))) = VArr []
        /\ error (view (settled s i p (Resolved true data))) = VNull)
  /\ (forall m, get data "recommendations" = Throw m ->
        recommendations (view (settled s i p (Resolved true data))) = VArr []
        /\ error (view (settled s i p (Resolved true data)))
           = VStr ("Error connecting to server: " ++ m)).
Proof.
  intros Hs Hi Hp.
  assert (isAction (handler p) = true) as Hact by now rewrite Hp.
  destruct (action_outstanding s i p Hs Hi Hact) as (_ & He & _ & Hr).
  specialize (Hr Hp).
  unfold settled. rewrite Hp.
  unfold settle_effects, handleRecommend_settle, handleRecommend_try,
    try_catch_finally, bind.
  destruct (get data "recommendations") as [rs | m]; cbn;
    repeat split; try assumption; settle_done.
Qed.

Lemma recommend_success_witness :
  let s := after [ClickTab RecommendTab; ChangeUser "1"; ClickRecommend] in
  let recs := VArr [VObj [("movieId"%string, VNum (num 7))]] in
  exists p,
    nth_error (pending s) 2 = Some p
    /\ recommendations
         (view (settled s 2 p
                  (Resolved true (VObj [("recommendations"%string, recs)]))))
       = recs
    /\ recommendations (view (settled s 2 p (Resolved true (VObj []))))
       = VArr [].
Proof.
  intros s recs.
  exists (mkPending
            (mkRequest "POST" (API_BASE_URL ++ "/recommend")
               (Some (VObj [("userId"%string, VNum (parseInt "1"));
                            ("topN"%string, VNum (num 10))])))
            HandleRecommend).
  split; [vm_compute; reflexivity|].
  split.
  - destruct (recommend_success s 2 _
                (VObj [("recommendations"%string, recs)])
                (reachable_after _) ltac:(vm_compute; reflexivity) eq_refl)
      as (_ & _ & Hstored & _).
    exact (proj1 (Hstored recs eq_refl eq_refl)).
  - destruct (recommend_success s 2 _ (VObj [])
                (reachable_after _) ltac:(vm_compute; reflexivity) eq_refl)
      as (_ & _ & _ & Hempty & _).
    exact (proj1 (Hempty VUndefined eq_refl eq_refl)).
Defined.

(** X3: when an outstanding recommend request ends otherwise than in a success
    response, the state is left with [loading] off, the empty
    recommendations, and in [error], which is truthy in every case: the
    prefixed message on a rejection or a [null] body, the body's [error] when
    that is truthy, the text "Recommendation failed" otherwise. *)
Theorem recommend_failure (s : Sys) (i : nat) (p : Pending) (o : Outcome) :
  reachable s ->
  nth_error (pending s) i = Some p ->
  handler p = HandleRecommend ->
  (forall data, o <> Resolved true data) ->
  loading (view (settled s i p o)) = false
  /\ recommendations (view (settled s i p o)) = VArr []
  /\ truthy (error (view (settled s i p o))) = true
  /\ (forall m, o = Rejected m ->
        error (view (settled s i p o))
        = VStr ("Error connecting to server: " ++ m))
  /\ (forall data e, o = Resolved false data -> get data "error" = Ok e ->
        truthy e = true -> error (view (settled s i p o)) = e)
  /\ (forall data e, o = Resolved false data -> get data "error" = Ok e ->
        truthy e = false ->
        error (view (settled s i p o)) = VStr "Recommendation failed")
  /\ (forall data m, o = Resolved false data -> get data "error" = Throw m ->
        error (view (settled s i p o))
        = VStr ("Error connecting to server: " ++ m)).
Proof.
  intros Hs Hi Hp Ho.
  assert (isAction (handler p) = true) as Hact by now rewrite Hp.
  destruct (action_outstanding s i p Hs Hi Hact) as (_ & _ & _ & Hr).
  specialize (Hr Hp).
  unfold settled. rewrite Hp.
  unfold settle_effects, handleRecommend_settle, handleRecommend_try,
    try_catch_finally, bind.
  destruct o as [m | [|] data].
  - cbn. repeat split; try assumption; settle_done.
  - now destruct (Ho data).
  - destruct (get data "error") as [e | m] eqn:Hget; cbn;
      repeat split; try assumption; settle_done;
      try (rewrite Hget in *; settle_done).
    now destruct (truthy e) eqn:Ht.
Qed.

Lemma recommend_failure_witness :
  let s := after [ClickTab RecommendTab; ChangeUser "1"; ClickRecommend] in
  exists p,
    nth_error (pending s) 2 = Some p
    /\ error (view (settled s 2 p (Resolved false (VObj []))))
       = VStr "Recommendation failed"
    /\ recommendations (view (settled s 2 p (Resolved false (VObj []))))
       = VArr [].
Proof.
  intros s.
  exists (mkPending
            (mkRequest "POST" (API_BASE_URL ++ "/recommend")
               (Some (VObj [("userId"%string, VNum (parseInt "1"));
                            ("topN"%string, VNum (num 10))])))
            HandleRecommend).
  split; [vm_compute; reflexivity|].
  destruct (recommend_failure s 2 _ (Resolved false (VObj []))
              (reachable_after _) ltac:(vm_compute; reflexivity) eq_refl
              ltac:(discriminate))
    as (_ & Hrecs & _ & _ & _ & Hfallback & _).
  split; [exact (Hfallback _ VUndefined eq_refl eq_refl eq_refl) | exact Hrecs].
Defined.

(** ** Further properties: reference data *)

(** X4: a response to a reference fetch whose body has a truthy value under the
    list's key stores that value in the list's cell, whatever the status of
    the response ([response.ok] is not read) and whether or not the value is
    an array; no other cell changes and nothing is logged. *)
Theorem reference_fetch_stores (s : Sys) (i : nat) (p : Pending) (ok : bool)
    (data list : value) :
  nth_error (pending s) i = Some p ->
  truthy list = true ->
  (handler p = FetchUsers -> get data "userIds" = Ok list ->
   view (settled s i p (Resolved ok data)) = apply (SetUsers list) (view s)
   /\ console (settled s i p (Resolved ok data)) = console s)
  /\ (handler p = FetchMovies -> get data "movies" = Ok list ->
      view (settled s i p (Resolved ok data)) = apply (SetMovies list) (view s)
      /\ console (settled s i p (Resolved ok data)) = console s).
Proof.
  intros Hi Ht. split; intros Hp Hget; unfold settled; rewrite Hp;
    unfold settle_effects, fetchUsers_settle, fetchUsers_try,
      fetchMovies_settle, fetchMovies_try, try_catch_finally, bind;
    rewrite Hget; unfold or_else; rewrite Ht; cbn;
    now rewrite app_nil_r.
Qed.

Lemma reference_fetch_stores_witness :
  let ids := VArr [VNum (num 1); VNum (num 2)] in
  let p := mkPending fetchUsers_request FetchUsers in
  users (view (settled mounted 0 p
                 (Resolved false (VObj [("userIds"%string, ids)]))))
  = ids.
Proof.
  intros ids p.
  destruct (reference_fetch_stores mounted 0 p false
              (VObj [("userIds"%string, ids)]) ids eq_refl eq_refl)
    as (Hu & _).
  destruct (Hu eq_refl eq_refl) as (-> & _). reflexivity.
Defined.

(** A step from a state with no outstanding request of kind [f], where [f]
    is not a kind that a click issues, leads to such a state again. *)
Lemma written_once_step (f : Handler -> bool) (s s' : Sys) (ev : Event) :
  f HandlePredict = false -> f HandleRecommend = false ->
  outstanding f s = [] ->
  step s ev = Some s' ->
  outstanding f s' = []
  /\ forall i p, nth_error (pending s) i = Some p -> f (handler p) = false.
Proof.
  intros HfP HfR Hnone Hstep. split.
  - destruct ev as [t | v | v | v | | | i o]; simpl in Hstep.
    + now injection Hstep as <-.
    + now injection Hstep as <-.
    + destruct (predictSection (view s)); [|discriminate].
      now injection Hstep as <-.
    + destruct (predictSection (view s)); [discriminate|].
      now injection Hstep as <-.
    + destruct (_ && _); [|discriminate]. injection Hstep as <-.
      rewrite outstanding_click, Hnone, HfP. now destruct (snd _).
    + destruct (_ && _); [|discriminate]. injection Hstep as <-.
      rewrite outstanding_click, Hnone, HfR. now destruct (snd _).
    + destruct (nth_error (pending s) i) as [p|] eqn:Hi; [|discriminate].
      injection Hstep as <-. unfold outstanding in *. simpl.
      destruct (f (handler p)) eqn:Hp.
      * now destruct
          (filter_nth_nonempty (fun q => f (handler q)) _ _ _ Hi Hp).
      * now rewrite (filter_remove_other (fun q => f (handler q)) _ _ _ Hi Hp).
  - intros i p Hi. destruct (f (handler p)) eqn:Hp; [|reflexivity].
    now destruct (filter_nth_nonempty (fun q => f (handler q)) _ _ _ Hi Hp).
Qed.

Lemma click_keeps_lists (h : Handler)
    (task : State -> list Effect * option Request) (s : Sys) :
  task = handlePredict_click \/ task = handleRecommend_click ->
  users (view (click h task s)) = users (view s)
  /\ movies (view (click h task s)) = movies (view s).
Proof.
  intros [-> | ->]; rewrite view_click.
  - unfold handlePredict_click. now destruct (_ || _).
  - unfold handleRecommend_click. now destruct (negb _).
Qed.

Lemma users_kept_step (s s' : Sys) (ev : Event) :
  outstanding isUsers s = [] ->
  step s ev = Some s' ->
  users (view s') = users (view s).
Proof.
  intros Hnone Hstep.
  destruct (written_once_step isUsers s s' ev eq_refl eq_refl Hnone Hstep)
    as (_ & Hother).
  destruct ev as [t | v | v | v | | | i o]; simpl in Hstep.
  - now injection Hstep as <-.
  - now injection Hstep as <-.
  - destruct (predictSection (view s)); [|discriminate].
    now injection Hstep as <-.
  - destruct (predictSection (view s)); [discriminate|].
    now injection Hstep as <-.
  - destruct (_ && _); [|discriminate]. injection Hstep as <-.
    now apply click_keeps_lists; left.
  - destruct (_ && _); [|discriminate]. injection Hstep as <-.
    now apply click_keeps_lists; right.
  - destruct (nth_error (pending s) i) as [p|] eqn:Hi; [|discriminate].
    injection Hstep as <-. apply settle_keeps_users. exact (Hother i p Hi).
Qed.

Lemma movies_kept_step (s s' : Sys) (ev : Event) :
  outstanding isMovies s = [] ->
  step s ev = Some s' ->
  movies (view s') = movies (view s).
Proof.
  intros Hnone Hstep.
  destruct (written_once_step isMovies s s' ev eq_refl eq_refl Hnone Hstep)
    as (_ & Hother).
  destruct ev as [t | v | v | v | | | i o]; simpl in Hstep.
  - now injection Hstep as <-.
  - now injection Hstep as <-.
  - destruct (predictSection (view s)); [|discriminate].
    now injection Hstep as <-.
  - destruct (predictSection (view s)); [discriminate|].
    now injection Hstep as <-.
  - destruct (_ && _); [|discriminate]. injection Hstep as <-.
    now apply click_keeps_lists; left.
  - destruct (_ && _); [|discriminate]. injection Hstep as <-.
    now apply click_keeps_lists; right.
  - destruct (nth_error (pending s) i) as [p|] eqn:Hi; [|discriminate].
    injection Hstep as <-. apply settle_keeps_movies. exact (Hother i p Hi).
Qed.

(** X5: each reference list is written at most once: from a state in which the
    fetch of the list is no longer outstanding, no sequence of events changes
    the list's cell or issues the fetch again. *)
Theorem reference_lists_written_once (evs : list Event) :
  forall s s' : Sys,
    exec evs s = Some s' ->
    (outstanding isUsers s = [] ->
     users (view s') = users (view s) /\ outstanding isUsers s' = [])
    /\ (outstanding isMovies s = [] ->
        movies (view s') = movies (view s) /\ outstanding isMovies s' = []).
Proof.
  induction evs as [|ev rest IH]; simpl; intros s s' He.
  - injection He as <-. auto.
  - destruct (step s ev) as [s1|] eqn:Hstep; [|discriminate].
    destruct (IH s1 s' He) as (IHu & IHm). split; intros Hnone.
    + destruct (written_once_step isUsers s s1 ev eq_refl eq_refl Hnone Hstep)
        as (Hnone1 & _).
      destruct (IHu Hnone1) as (-> & ->).
      split; [exact (users_kept_step s s1 ev Hnone Hstep) | reflexivity].
    + destruct (written_once_step isMovies s s1 ev eq_refl eq_refl Hnone Hstep)
        as (Hnone1 & _).
      destruct (IHm Hnone1) as (-> & ->).
      split; [exact (movies_kept_step s s1 ev Hnone Hstep) | reflexivity].
Qed.

Lemma reference_lists_written_once_witness :
  let ids := VArr [VNum (num 1); VNum (num 2)] in
  let s := after [Settle 0 (Resolved true (VObj [("userIds"%string, ids)]))] in
  users (view (after [Settle 0 (Resolved true (VObj [("userIds"%string, ids)]));
                      ChangeUser "1"; ChangeMovie "10"; ClickPredict;
                      Settle 1 (Rejected "Failed to fetch");
                      Settle 0 (Rejected "Failed to fetch")]))
  = ids.
Proof.
  intros ids s.
  assert (exec [ChangeUser "1"; ChangeMovie "10"; ClickPredict;
                Settle 1 (Rejected "Failed to fetch");
                Settle 0 (Rejected "Failed to fetch")] s
          = Some (after [Settle 0 (Resolved true
                                     (VObj [("userIds"%string, ids)]));
                         ChangeUser "1"; ChangeMovie "10"; ClickPredict;
                         Settle 1 (Rejected "Failed to fetch");
                         Settle 0 (Rejected "Failed to fetch")])) as He
    by (vm_compute; reflexivity).
  destruct (reference_lists_written_once _ _ _ He) as (Hu & _).
  destruct (Hu ltac:(vm_compute; reflexivity)) as (-> & _).
  vm_compute. reflexivity.
Defined.

(** ** Further properties: what each task can touch *)

(** X6: the cells the user edits change only through their own control: a
    submit click, the settlement of a request, or the other controls leave
    the selected user, the selected movie, the number of recommendations and
    the active tab as they were. *)
Theorem inputs_change_only_by_their_control (s s' : Sys) (ev : Event) :
  step s ev = Some s' ->
  (editsUser ev = false -> selectedUser (view s') = selectedUser (view s))
  /\ (editsMovie ev = false -> selectedMovie (view s') = selectedMovie (view s))
  /\ (editsTopN ev = false -> topN (view s') = topN (view s))
  /\ (editsTab ev = false -> activeTab (view s') = activeTab (view s)).
Proof.
  intros Hstep.
  destruct ev as [t | v | v | v | | | i o]; simpl in Hstep.
  - injection Hstep as <-. repeat split; auto; discriminate.
  - injection Hstep as <-. repeat split; auto; discriminate.
  - destruct (predictSection (view s)); [|discriminate].
    injection Hstep as <-. repeat split; auto; discriminate.
  - destruct (predictSection (view s)); [discriminate|].
    injection Hstep as <-. repeat split; auto; discriminate.
  - destruct (_ && _); [|discriminate]. injection Hstep as <-.
    rewrite view_click. unfold handlePredict_click.
    destruct (_ || _); repeat split.
  - destruct (_ && _); [|discriminate]. injection Hstep as <-.
    rewrite view_click. unfold handleRecommend_click.
    destruct (negb _); repeat split.
  - destruct (nth_error (pending s) i) as [p|]; [|discriminate].
    injection Hstep as <-. unfold settled. simpl view.
    generalize (handler p). intros h.
    settle_cases h o; repeat split.
Qed.

Lemma inputs_change_only_by_their_control_witness :
  let s := after [ChangeUser "1"; ChangeMovie "10"; ClickPredict] in
  selectedUser
    (view (after [ChangeUser "1"; ChangeMovie "10"; ClickPredict;
                  Settle 2 (Resolved true VNull)]))
  = "1"%string.
Proof.
  intros s.
  assert (step s (Settle 2 (Resolved true VNull))
          = Some (after [ChangeUser "1"; ChangeMovie "10"; ClickPredict;
                         Settle 2 (Resolved true VNull)])) as Hstep
    by (vm_compute; reflexivity).
  destruct (inputs_change_only_by_their_control _ _ _ Hstep) as (Hu & _).
  rewrite (Hu eq_refl). vm_compute. reflexivity.
Defined.

(** X7: while [loading] is on, nothing the user does turns it off or touches
    the outstanding requests: the submit buttons take no click, and the other
    controls leave both as they are.  Only a settlement ends it. *)
Theorem loading_outlasts_user_events (s s' : Sys) (ev : Event) :
  loading (view s) = true ->
  userEvent ev = true ->
  step s ev = Some s' ->
  loading (view s') = true /\ pending s' = pending s.
Proof.
  intros Hl Hev Hstep.
  destruct ev as [t | v | v | v | | | i o]; simpl in Hstep;
    try discriminate Hev.
  - now injection Hstep as <-.
  - now injection Hstep as <-.
  - destruct (predictSection (view s)); [|discriminate].
    now injection Hstep as <-.
  - destruct (predictSection (view s)); [discriminate|].
    now injection Hstep as <-.
  - unfold buttonDisabled in Hstep. rewrite Hl, andb_false_r in Hstep.
    discriminate.
  - unfold buttonDisabled in Hstep. rewrite Hl, andb_false_r in Hstep.
    discriminate.
Qed.

Lemma loading_outlasts_user_events_witness :
  loading
    (view (after [ChangeUser "1"; ChangeMovie "10"; ClickPredict;
                  ClickTab RecommendTab]))
  = true.
Proof.
  assert (step (after [ChangeUser "1"; ChangeMovie "10"; ClickPredict])
            (ClickTab RecommendTab)
          = Some (after [ChangeUser "1"; ChangeMovie "10"; ClickPredict;
                         ClickTab RecommendTab])) as Hstep
    by (vm_compute; reflexivity).
  assert (loading
            (view (after [ChangeUser "1"; ChangeMovie "10"; ClickPredict]))
          = true) as Hl by (vm_compute; reflexivity).
  exact (proj1 (loading_outlasts_user_events _ _ (ClickTab RecommendTab)
                  Hl eq_refl Hstep)).
Defined.

(** ** Further properties: the requests *)

Lemma issued_by_click_predict (st : State) (req : Request) :
  snd (handlePredict_click st) = Some req ->
  issued_by_code (mkPending req HandlePredict).
Proof.
  unfold handlePredict_click, issued_by_code.
  destruct (truthy (VStr (selectedUser st))) eqn:Hu;
    destruct (truthy (VStr (selectedMovie st))) eqn:Hm; cbn;
    try discriminate.
  intros H. injection H as <-. exists (selectedUser st), (selectedMovie st).
  repeat split; intros E; apply empty_falsy in E; congruence.
Qed.

Lemma issued_by_click_recommend (st : State) (req : Request) :
  snd (handleRecommend_click st) = Some req ->
  issued_by_code (mkPending req HandleRecommend).
Proof.
  unfold handleRecommend_click, issued_by_code.
  destruct (truthy (VStr (selectedUser st))) eqn:Hu; cbn; try discriminate.
  intros H. injection H as <-. exists (selectedUser st), (topN st).
  split; [|reflexivity]. intros E; apply empty_falsy in E; congruence.
Qed.

Lemma pending_click (h : Handler) (task : State -> list Effect * option Request)
    (s : Sys) :
  pending (click h task s) = pending s ++ issued h (snd (task (view s))).
Proof.
  unfold click. now destruct (task (view s)).
Qed.

(** X8: the component talks to four endpoints and to nothing else: in every
    reachable state each outstanding request is the GET of [/users] or of
    [/movies] with no body, a POST to [/predict] whose body holds [parseInt]
    of a non-empty user and movie selection, or a POST to [/recommend] whose
    body holds [parseInt] of a non-empty user selection and a [topN]. *)
Theorem requests_are_the_four (s : Sys) :
  reachable s -> Forall issued_by_code (pending s).
Proof.
  induction 1 as [|s s' ev _ IH Hstep].
  - repeat constructor.
  - destruct ev as [t | v | v | v | | | i o]; simpl in Hstep.
    + now injection Hstep as <-.
    + now injection Hstep as <-.
    + destruct (predictSection (view s)); [|discriminate].
      now injection Hstep as <-.
    + destruct (predictSection (view s)); [discriminate|].
      now injection Hstep as <-.
    + destruct (_ && _); [|discriminate]. injection Hstep as <-.
      rewrite pending_click. apply Forall_app. split; [exact IH|].
      destruct (snd (handlePredict_click (view s))) as [req|] eqn:Hreq;
        simpl; constructor; [|constructor].
      exact (issued_by_click_predict _ _ Hreq).
    + destruct (_ && _); [|discriminate]. injection Hstep as <-.
      rewrite pending_click. apply Forall_app. split; [exact IH|].
      destruct (snd (handleRecommend_click (view s))) as [req|] eqn:Hreq;
        simpl; constructor; [|constructor].
      exact (issued_by_click_recommend _ _ Hreq).
    + destruct (nth_error (pending s) i) as [p|] eqn:Hi; [|discriminate].
      injection Hstep as <-. simpl.
      destruct (remove_nth_split _ _ _ Hi) as (l1 & l2 & Hl & ->).
      rewrite Hl in IH. apply Forall_app in IH. destruct IH as [H1 H2].
      apply Forall_app. split; [exact H1|]. now inversion H2.
Qed.

Lemma requests_are_the_four_witness :
  Forall issued_by_code
    (pending (after [ChangeUser "1"; ChangeMovie "10"; ClickPredict])).
Proof.
  exact (requests_are_the_four _ (reachable_after _)).
Defined.

Lemma length_by_handler (l : list Pending) :
  List.length l
  = List.length (filter (fun p => isAction (handler p)) l)
    + List.length (filter (fun p => isUsers (handler p)) l)
    + List.length (filter (fun p => isMovies (handler p)) l).
Proof.
  induction l as [|p l IH]; [reflexivity|].
  simpl. destruct (handler p); simpl; lia.
Qed.

(** X9: never more than three requests are outstanding: the two reference
    fetches and one submit request. *)
Theorem at_most_three_outstanding (s : Sys) :
  reachable s -> List.length (pending s) <= 3.
Proof.
  intros Hs.
  destruct (invariant_reachable s Hs) as (Ha & Hu & Hm).
  rewrite length_by_handler.
  unfold actions_inv, users_inv, movies_inv, outstanding in *.
  destruct (filter (fun p => isAction (handler p)) (pending s))
    as [|a [|a' la]]; [| |contradiction];
    destruct (filter (fun p => isUsers (handler p)) (pending s))
      as [|u [|u' lu]]; try contradiction;
    destruct (filter (fun p => isMovies (handler p)) (pending s))
      as [|m [|m' lm]]; try contradiction; simpl; lia.
Qed.

Lemma at_most_three_outstanding_witness :
  List.length (pending (after [ChangeUser "1"; ChangeMovie "10"; ClickPredict]))
  <= 3.
Proof.
  exact (at_most_three_outstanding _ (reachable_after _)).
Defined.

Lemma length_remove_nth {A : Type} (l : list A) (i : nat) (p : A) :
  nth_error l i = Some p ->
  S (List.length (remove_nth i l)) = List.length l.
Proof.
  intros H. destruct (remove_nth_split l i p H) as (l1 & l2 & -> & ->).
  rewrite !length_app. simpl. lia.
Qed.

Lemma remove_nth_at {A : Type} (l : list A) (i : nat) (p : A) :
  nth_error l i = Some p ->
  exists l1 l2,
    l = l1 ++ p :: l2 /\ List.length l1 = i /\ remove_nth i l = l1 ++ l2.
Proof.
  intros H.
  destruct (nth_error_split l i H) as (l1 & l2 & -> & <-).
  exists l1, l2. split; [reflexivity|]. split; [reflexivity|].
  unfold remove_nth.
  rewrite firstn_app, firstn_all, Nat.sub_diag, firstn_O, app_nil_r.
  replace (S (List.length l1)) with (List.length l1 + 1) by lia.
  rewrite skipn_app, skipn_all2 by lia.
  replace (List.length l1 + 1 - List.length l1) with 1 by lia.
  reflexivity.
Qed.

(** X10: what one task does to the outstanding requests: the settlement of
    the [i]-th request removes that request, keeps the others in their order
    and issues none (there is no retry); a submit click issues exactly one
    request, after those outstanding, when its validation passes and none
    when it fails; the tabs and the inputs issue none. *)
Theorem requests_per_task (s s' : Sys) (ev : Event) :
  step s ev = Some s' ->
  match ev with
  | Settle i _ =>
      exists l1 p l2,
        pending s = l1 ++ p :: l2
        /\ List.length l1 = i
        /\ pending s' = l1 ++ l2
  | ClickPredict =>
      List.length (pending s')
      = List.length (pending s)
        + (if negb (String.eqb (selectedUser (view s)) "")
              && negb (String.eqb (selectedMovie (view s)) "")
           then 1 else 0)
      /\ firstn (List.length (pending s)) (pending s') = pending s
  | ClickRecommend =>
      List.length (pending s')
      = List.length (pending s)
        + (if negb (String.eqb (selectedUser (view s)) "") then 1 else 0)
      /\ firstn (List.length (pending s)) (pending s') = pending s
  | _ => pending s' = pending s
  end.
Proof.
  intros Hstep.
  destruct ev as [t | v | v | v | | | i o]; simpl in Hstep.
  - now injection Hstep as <-.
  - now injection Hstep as <-.
  - destruct (predictSection (view s)); [|discriminate].
    now injection Hstep as <-.
  - destruct (predictSection (view s)); [discriminate|].
    now injection Hstep as <-.
  - destruct (_ && _); [|discriminate]. injection Hstep as <-.
    rewrite pending_click, length_app.
    rewrite firstn_app, firstn_all, Nat.sub_diag, firstn_O, app_nil_r.
    split; [|reflexivity]. f_equal.
    unfold handlePredict_click. simpl.
    destruct (String.eqb (selectedUser (view s)) "");
      destruct (String.eqb (selectedMovie (view s)) ""); reflexivity.
  - destruct (_ && _); [|discriminate]. injection Hstep as <-.
    rewrite pending_click, length_app.
    rewrite firstn_app, firstn_all, Nat.sub_diag, firstn_O, app_nil_r.
    split; [|reflexivity]. f_equal.
    unfold handleRecommend_click. simpl.
    destruct (String.eqb (selectedUser (view s)) ""); reflexivity.
  - destruct (nth_error (pending s) i) as [p|] eqn:Hi; [|discriminate].
    injection Hstep as <-. simpl.
    destruct (remove_nth_at _ _ _ Hi) as (l1 & l2 & Hl & Hlen & Hrm).
    exists l1, p, l2. auto.
Qed.

Lemma requests_per_task_witness :
  map handler
    (pending (after [ChangeUser "1"; ChangeMovie "10"; ClickPredict;
                     Settle 0 (Rejected "Failed to fetch")]))
  = [FetchMovies; HandlePredict].
Proof.
  assert (step (after [ChangeUser "1"; ChangeMovie "10"; ClickPredict])
            (Settle 0 (Rejected "Failed to fetch"))
          = Some (after [ChangeUser "1"; ChangeMovie "10"; ClickPredict;
                         Settle 0 (Rejected "Failed to fetch")])) as Hstep
    by (vm_compute; reflexivity).
  destruct (requests_per_task _ _ (Settle 0 (Rejected "Failed to fetch")) Hstep)
    as (l1 & p & l2 & Hl & Hlen & ->).
  destruct l1; [|discriminate Hlen].
  vm_compute in Hl. injection Hl as _ <-. reflexivity.
Defined.

(** ** Further properties: the error box and the tabs *)

Lemma error_after_step (s s' : Sys) (ev : Event) :
  step s ev = Some s' ->
  error (view s') = error (view s)
  \/ error (view s') = VNull
  \/ truthy (error (view s')) = true.
Proof.
  intros Hstep.
  destruct ev as [t | v | v | v | | | i o]; simpl in Hstep.
  - injection Hstep as <-. now left.
  - injection Hstep as <-. now left.
  - destruct (predictSection (view s)); [|discriminate].
    injection Hstep as <-. now left.
  - destruct (predictSection (view s)); [discriminate|].
    injection Hstep as <-. now left.
  - destruct (_ && _); [|discriminate]. injection Hstep as <-.
    rewrite view_click. unfold handlePredict_click.
    destruct (_ || _); simpl; auto.
  - destruct (_ && _); [|discriminate]. injection Hstep as <-.
    rewrite view_click. unfold handleRecommend_click.
    destruct (negb _); simpl; auto.
  - destruct (nth_error (pending s) i) as [p|]; [|discriminate].
    injection Hstep as <-. unfold settled. simpl view.
    generalize (handler p). intros h.
    settle_cases h o; auto; right; right; unfold or_else;
      match goal with |- context [truthy ?e] => now destruct (truthy e) eqn:Ht end.
Qed.

(** X11: the stored error is [null] or truthy in every reachable state, so the
    error slot of the page is either empty or the message box holding the
    stored error; a falsy value such as 0 or the empty string never reaches
    the page through it. *)
Theorem error_slot_empty_or_box (s : Sys) :
  reachable s ->
  (error (view s) = VNull /\ errorSlot (view s) = Bare VNull)
  \/ (truthy (error (view s)) = true
      /\ errorSlot (view s) = ErrorMessage (error (view s))).
Proof.
  intros Hs.
  assert (error (view s) = VNull \/ truthy (error (view s)) = true) as H.
  { induction Hs as [|s s' ev _ IH Hstep]; [now left|].
    destruct (error_after_step s s' ev Hstep) as [-> | [-> | Ht]]; auto. }
  unfold errorSlot. destruct H as [H | H]; rewrite H; auto.
Qed.

Lemma error_slot_empty_or_box_witness :
  errorSlot (view (after [ClickPredict]))
  = ErrorMessage (VStr "Please select both user and movie").
Proof.
  destruct (error_slot_empty_or_box _ (reachable_after [ClickPredict]))
    as [(H & _) | (_ & H)].
  - vm_compute in H. discriminate.
  - rewrite H. vm_compute. reflexivity.
Defined.

(** X12: the active tab is always one of the two tab names, so exactly one tab
    button carries the class [active], and the section on the page is the
    one it names. *)
Theorem one_tab_active (s : Sys) :
  reachable s ->
  (activeTab (view s) = "predict"%string
   /\ predictSection (view s) = true
   /\ tabClass (view s) PredictTab = "tab active"%string
   /\ tabClass (view s) RecommendTab = "tab "%string)
  \/ (activeTab (view s) = "recommend"%string
      /\ predictSection (view s) = false
      /\ tabClass (view s) PredictTab = "tab "%string
      /\ tabClass (view s) RecommendTab = "tab active"%string).
Proof.
  intros Hs.
  assert (activeTab (view s) = "predict"%string
          \/ activeTab (view s) = "recommend"%string) as H.
  { induction Hs as [|s s' ev _ IH Hstep]; [now left|].
    destruct (inputs_change_only_by_their_control s s' ev Hstep)
      as (_ & _ & _ & Htab).
    destruct ev as [[|] | v | v | v | | | i o];
      try (rewrite (Htab eq_refl); exact IH);
      simpl in Hstep; injection Hstep as <-; simpl; auto. }
  unfold predictSection, tabClass.
  destruct H as [-> | ->]; [left | right]; repeat split.
Qed.

Lemma one_tab_active_witness :
  tabClass (view (after [ClickTab RecommendTab])) RecommendTab
  = "tab active"%string.
Proof.
  destruct (one_tab_active _ (reachable_after [ClickTab RecommendTab]))
    as [(H & _) | (_ & _ & _ & H)].
  - vm_compute in H. discriminate.
  - exact H.
Defined.

(** ** Further properties: when the recommendation list renders *)

Lemma get_total (rec : value) (k k' : string) (v : value) :
  get rec k = Ok v -> exists v', get rec k' = Ok v'.
Proof.
  destruct rec; simpl; try discriminate; eauto.
  intros _. destruct (lookup k' props); eauto.
Qed.

Lemma card_renders (rec : value) (index : nat) :
  (exists c, card rec index = Ok c)
  <-> exists x n,
        get rec "predictedRating" = Ok (VNum x) /\ starLine x = Ok n.
Proof.
  unfold card, bind, starLine. split.
  - intros (c & H).
    destruct (get rec "movieId") as [k|]; [|discriminate].
    destruct (get rec "title") as [t|]; [|discriminate].
    destruct (get rec "genres") as [g|]; [|discriminate].
    destruct (get rec "predictedRating") as [r|]; [|discriminate].
    destruct r; simpl in H; try discriminate.
    destruct (repeat_length (round_count n)) as [k'|] eqn:Hr; [|discriminate].
    eauto.
  - intros (x & n & Hget & Hn).
    destruct (get_total rec _ "movieId" _ Hget) as (k & ->).
    destruct (get_total rec _ "title" _ Hget) as (t & ->).
    destruct (get_total rec _ "genres" _ Hget) as (g & ->).
    rewrite Hget. simpl. rewrite Hn. eauto.
Qed.

Lemma cardsFrom_renders (items : list value) :
  forall start : nat,
    (exists cards, cardsFrom start items = Ok cards)
    <-> Forall (fun rec => exists c, card rec 0 = Ok c) items.
Proof.
  induction items as [|rec rest IH]; simpl; intros start.
  - split; [constructor | eauto].
  - split.
    + intros (cards & H).
      destruct (card rec start) as [c|] eqn:Hc; simpl in H; [|discriminate].
      destruct (cardsFrom (S start) rest) as [cs|] eqn:Hrest; simpl in H;
        [|discriminate].
      constructor.
      * apply card_renders. apply (card_renders rec start). eauto.
      * apply (IH (S start)). eauto.
    + intros H. inversion H as [|? ? Hrec Hrest]; subst.
      apply card_renders in Hrec. apply (card_renders rec start) in Hrec.
      destruct Hrec as (c & ->).
      apply (IH (S start)) in Hrest. destruct Hrest as (cs & ->).
      simpl. eauto.
Qed.

(** X13: one element of the stored recommendations that is [null] or
    [undefined], has no number under [predictedRating], or has a rating that
    rounds to an infinite or negative count of stars makes the whole list
    throw, whatever the other elements are. *)
Theorem one_bad_card_breaks_the_list (items : list value) (rec : value) :
  In rec items ->
  breaks_card rec ->
  exists m, recommendationCards items = Throw m.
Proof.
  intros Hin Hbad.
  destruct (recommendationCards items) as [cards | m] eqn:Hcards; [|eauto].
  exfalso.
  assert (exists cs, cardsFrom 0 items = Ok cs) as Hok by eauto.
  apply cardsFrom_renders in Hok.
  rewrite Forall_forall in Hok. specialize (Hok rec Hin).
  apply card_renders in Hok. destruct Hok as (x & n & Hget & Hn).
  unfold starLine in Hn.
  destruct Hbad as [-> | [-> | [(v & Hv & Hnot) | (y & Hy & Hcount)]]];
    try discriminate.
  - rewrite Hget in Hv. injection Hv as <-. now apply (Hnot x).
  - rewrite Hget in Hy. injection Hy as <-.
    destruct (round_count x) as [z | neg]; simpl in Hn; [|discriminate].
    destruct (Z.ltb_spec z 0); [discriminate | lia].
Qed.

Lemma one_bad_card_breaks_the_list_witness :
  let good := VObj [("movieId", VNum (num 7)); ("title", VStr "Heat");
                    ("genres", VStr "Crime"); ("predictedRating", VNum (num 4))]
                   %string in
  let bad := VObj [("movieId", VNum (num 3)); ("title", VStr "Alien")]%string in
  (exists cards, recommendationCards [good] = Ok cards)
  /\ exists m, recommendationCards [good; bad; good] = Throw m.
Proof.
  intros good bad. split.
  - eexists. reflexivity.
  - apply (one_bad_card_breaks_the_list [good; bad; good] bad).
    + right. left. reflexivity.
    + right. right. left. exists VUndefined.
      split; [reflexivity | discriminate].
Defined.

(** ** Further properties: a whole invocation *)

Lemma nth_error_last {A : Type} (l : list A) (a : A) :
  nth_error (l ++ [a]) (List.length l) = Some a.
Proof.
  rewrite nth_error_app2, Nat.sub_diag by lia. reflexivity.
Qed.

Lemma remove_nth_last {A : Type} (l : list A) (a : A) :
  remove_nth (List.length l) (l ++ [a]) = l.
Proof.
  unfold remove_nth.
  rewrite firstn_app, firstn_all, Nat.sub_diag, firstn_O, app_nil_r.
  rewrite skipn_all2 by (rewrite length_app; simpl; lia).
  now rewrite app_nil_r.
Qed.

(** X14: a whole predict invocation from an idle state with both selections made:
    the click followed by a success response leaves the response data as the
    prediction, no error, [loading] off, the other cells, the outstanding
    requests and the console as they were. *)
Theorem predict_invocation (s : Sys) (data : value) :
  loading (view s) = false ->
  predictSection (view s) = true ->
  selectedUser (view s) <> EmptyString ->
  selectedMovie (view s) <> EmptyString ->
  exec [ClickPredict; Settle (List.length (pending s)) (Resolved true data)] s
  = Some (mkSys
            (mkState (activeTab (view s)) (users (view s)) (movies (view s))
               (selectedUser (view s)) (selectedMovie (view s)) data
               (recommendations (view s)) (topN (view s)) false VNull)
            (pending s) (console s)).
Proof.
  intros Hl Htab Hu Hm.
  unfold exec, step, buttonDisabled. rewrite Htab, Hl. simpl andb. cbv iota.
  rewrite pending_click. unfold handlePredict_click at 1.
  rewrite (nonempty_truthy _ Hu), (nonempty_truthy _ Hm). simpl snd.
  simpl issued. rewrite nth_error_last.
  unfold settled. simpl handler. rewrite pending_click.
  unfold handlePredict_click at 2.
  rewrite (nonempty_truthy _ Hu), (nonempty_truthy _ Hm). simpl snd.
  simpl issued. rewrite remove_nth_last.
  rewrite view_click. unfold click, handlePredict_click.
  rewrite (nonempty_truthy _ Hu), (nonempty_truthy _ Hm). cbn.
  now rewrite !app_nil_r.
Qed.

Lemma predict_invocation_witness :
  exec [ClickPredict; Settle 2 (Resolved true (VStr "data"))]
    (after [ChangeUser "1"; ChangeMovie "10"])
  = Some (mkSys
            (mkState "predict" (VArr []) (VArr []) "1" "10" (VStr "data")
               (VArr []) (num 10) false VNull)
            (pending mounted) []).
Proof.
  exact (predict_invocation (after [ChangeUser "1"; ChangeMovie "10"])
           (VStr "data") eq_refl eq_refl
           ltac:(vm_compute; discriminate) ltac:(vm_compute; discriminate)).
Defined.

(** ** Further properties: the ids sent *)

Lemma digits_cons (radix : Z) (c : ascii) (rest : string) (acc : option Z)
    (d : Z) :
  digit_value radix c = Some d ->
  digits radix (String c rest) acc
  = digits radix rest
      (Some (radix * match acc with Some a => a | None => 0 end + d)%Z).
Proof.
  intros H. simpl. now rewrite H.
Qed.

Lemma digits_decimal (d : Decimal.uint) :
  forall a : nat,
    digits 10 (NilEmpty.string_of_uint d) (Some (Z.of_nat a))
    = Some (Z.of_nat (Nat.of_uint_acc d a)).
Proof.
  induction d; intros a; [reflexivity | ..];
    simpl NilEmpty.string_of_uint; simpl Nat.of_uint_acc;
    erewrite digits_cons by reflexivity;
    rewrite <- IHd; do 2 f_equal; rewrite Nat.tail_mul_spec;
    match goal with
    | |- context [(Z.of_nat (nat_of_ascii ?c) - 48)%Z] =>
        let v := eval vm_compute in (Z.of_nat (nat_of_ascii c) - 48)%Z in
        change (Z.of_nat (nat_of_ascii c) - 48)%Z with v
    end; lia.
Qed.

Lemma digits_decimal_start (d : Decimal.uint) :
  d <> Decimal.Nil ->
  digits 10 (NilEmpty.string_of_uint d) None
  = Some (Z.of_nat (Nat.of_uint d)).
Proof.
  intros Hd. unfold Nat.of_uint.
  destruct d; [congruence | ..];
    simpl NilEmpty.string_of_uint; simpl Nat.of_uint_acc;
    erewrite digits_cons by reflexivity;
    rewrite <- digits_decimal; reflexivity.
Qed.

Lemma decimal_unsigned (d : Decimal.uint) :
  d <> Decimal.Nil ->
  strip_hex (snd (strip_sign (trim_start (NilEmpty.string_of_uint d))))
  = (10%Z, NilEmpty.string_of_uint d)
  /\ fst (strip_sign (trim_start (NilEmpty.string_of_uint d))) = false.
Proof.
  intros Hd.
  destruct d as [|d|d|d|d|d|d|d|d|d|d]; [congruence | ..]; simpl;
    try (split; reflexivity).
  destruct d; split; reflexivity.
Qed.

Lemma to_uint_nonnil (n : nat) : Nat.to_uint n <> Decimal.Nil.
Proof.
  rewrite <- (Unsigned.of_to n) at 1. rewrite Unsigned.to_of.
  apply DecimalFacts.unorm_nonnil.
Qed.

Lemma parseInt_decimal (n : nat) : parseInt (decimal n) = num (Z.of_nat n).
Proof.
  unfold parseInt, decimal.
  pose proof (to_uint_nonnil n) as Hd.
  destruct (decimal_unsigned _ Hd) as (Hhex & Hsign).
  destruct (strip_sign (trim_start (NilEmpty.string_of_uint (Nat.to_uint n))))
    as [neg s1].
  simpl in Hhex, Hsign. subst neg. rewrite Hhex.
  rewrite (digits_decimal_start _ Hd), Unsigned.of_to. reflexivity.
Qed.

Lemma decimal_nonempty (n : nat) : decimal n <> EmptyString.
Proof.
  unfold decimal. pose proof (to_uint_nonnil n) as Hd.
  destruct (Nat.to_uint n); [congruence | ..]; discriminate.
Qed.

(** X15: the ids chosen are the ids sent: when the selections are the decimal
    strings of the numbers u and m, which is what choosing the options of
    user u and movie m stores, the predict request carries userId u and
    movieId m, and the recommend request carries userId u. *)
Theorem chosen_ids_are_sent (st : State) (u m : nat) :
  selectedUser st = decimal u ->
  selectedMovie st = decimal m ->
  snd (handlePredict_click st)
  = Some (mkRequest "POST" (API_BASE_URL ++ "/predict")
            (Some (VObj [("userId"%string, VNum (num (Z.of_nat u)));
                         ("movieId"%string, VNum (num (Z.of_nat m)))])))
  /\ snd (handleRecommend_click st)
     = Some (mkRequest "POST" (API_BASE_URL ++ "/recommend")
               (Some (VObj [("userId"%string, VNum (num (Z.of_nat u)));
                            ("topN"%string, VNum (topN st))]))).
Proof.
  intros Hu Hm.
  unfold handlePredict_click, handleRecommend_click.
  rewrite Hu, Hm, !parseInt_decimal.
  rewrite !(nonempty_truthy _ (decimal_nonempty _)). split; reflexivity.
Qed.

Lemma chosen_ids_are_sent_witness :
  let st := run [SetSelectedUser "42"; SetSelectedMovie "1007"] initial in
  snd (handlePredict_click st)
  = Some (mkRequest "POST" (API_BASE_URL ++ "/predict")
            (Some (VObj [("userId"%string, VNum (num 42));
                         ("movieId"%string, VNum (num 1007))]))).
Proof.
  intros st.
  exact (proj1 (chosen_ids_are_sent st 42 1007 eq_refl eq_refl)).
Defined.

(** ** Further properties: the star line *)

Lemma num_0 : num 0 = S754_zero false.
Proof. reflexivity. Qed.

Lemma num_5 : num 5 = S754_finite false 5629499534213120 (-50).
Proof. vm_compute. reflexivity. Qed.

Lemma round_small (m : positive) (e : Z) :
  (e < -50)%Z -> (Z.pos m < 2 ^ 53)%Z ->
  (0 <= (Z.pos m + 2 ^ (- e - 1)) / 2 ^ (- e) < 5)%Z.
Proof.
  intros He Hm.
  assert (0 < Z.pos m)%Z as Hm0 by reflexivity.
  generalize dependent (Z.pos m). intros z Hm Hm0.
  assert (2 ^ (- e) = 2 * 2 ^ (- e - 1))%Z as Hk.
  { replace (- e)%Z with (Z.succ (- e - 1)) at 1 by lia.
    apply Z.pow_succ_r. lia. }
  assert (2 ^ 51 <= 2 ^ (- e))%Z as Hbig by (apply Z.pow_le_mono_r; lia).
  assert (0 < 2 ^ (- e - 1))%Z as Hpos by (apply Z.pow_pos_nonneg; lia).
  change (2 ^ 53)%Z with 9007199254740992%Z in Hm.
  change (2 ^ 51)%Z with 2251799813685248%Z in Hbig.
  rewrite Hk in *. split.
  - apply Z.div_pos; lia.
  - apply Z.div_lt_upper_bound; lia.
Qed.

Lemma round_at_fifty (m : positive) :
  (m <= 5629499534213120)%positive ->
  (0 <= (Z.pos m + 2 ^ 49) / 2 ^ 50 <= 5)%Z.
Proof.
  intros Hm.
  assert (Z.pos m <= 5629499534213120)%Z as Hz by exact Hm.
  assert (0 < Z.pos m)%Z as Hz0 by reflexivity.
  clear Hm. generalize dependent (Z.pos m). intros z Hz Hz0.
  change (2 ^ 49)%Z with 562949953421312%Z.
  change (2 ^ 50)%Z with 1125899906842624%Z.
  split.
  - apply Z.div_pos; lia.
  - apply Z.lt_succ_r. apply Z.div_lt_upper_bound; lia.
Qed.

Lemma repeat_length_small (r : Z) :
  (0 <= r <= 5)%Z ->
  exists n, repeat_length (Finite r) = Ok n /\ n <= 5.
Proof.
  intros Hr. exists (Z.to_nat r). simpl.
  destruct (Z.ltb_spec r 0); [lia|].
  destruct (Z.ltb_spec max_string_length r) as [Hbig|_].
  - unfold max_string_length in Hbig. lia.
  - split; [reflexivity | lia].
Qed.

(** X16: a rating between 0 and 5 gives between 0 and 5 stars, and the star line
    never throws for it: this holds of every double (mantissa of at most 53
    bits) that compares within those bounds. *)
Theorem stars_at_most_five (x : number) :
  fits x ->
  between 0 5 x = true ->
  exists n, starLine x = Ok n /\ n <= 5.
Proof.
  unfold between, starLine. rewrite num_0, num_5.
  intros Hfit H. apply andb_prop in H. destruct H as [Hlo Hhi].
  destruct x as [s | s | | s m e]; simpl in Hlo, Hhi.
  - exists 0. split; [reflexivity | lia].
  - destruct s; discriminate.
  - discriminate.
  - destruct s; [discriminate|]. simpl in Hfit.
    unfold SFleb, SFcompare in Hhi.
    unfold round_count.
    destruct (Z.compare_spec e (-50)) as [-> | He | He];
      [| | discriminate].
    + apply repeat_length_small. simpl Z.leb. cbv iota.
      change (- -50 - 1)%Z with 49%Z. change (- -50)%Z with 50%Z.
      apply round_at_fifty.
      unfold Pos.le. rewrite Pos.compare_cont_spec in Hhi. simpl in Hhi.
      destruct (m ?= 5629499534213120)%positive; simpl in Hhi; congruence.
    + apply repeat_length_small.
      destruct (Z.leb_spec 0 e); [lia|].
      pose proof (round_small m e He Hfit). lia.
Qed.

Lemma stars_at_most_five_witness :
  let x := SFdiv prec emax (num 42) (num 10) in
  exists n, starLine x = Ok n /\ n <= 5.
Proof.
  intros x.
  apply (stars_at_most_five x).
  - vm_compute. reflexivity.
  - vm_compute. reflexivity.
Defined.

(** ** Further properties: the order of the responses *)

(** X17: the response to a reference fetch and the response to any other request
    can arrive in either order: the state after both is the same. *)
Theorem settlements_commute (h1 h2 : Handler) (o1 o2 : Outcome) (st : State) :
  isAction h1 = false ->
  h1 <> h2 ->
  run (settle_effects h2 o2) (run (settle_effects h1 o1) st)
  = run (settle_effects h1 o1) (run (settle_effects h2 o2) st).
Proof.
  intros Hfetch Hne.
  unfold_settle.
  destruct h1; try discriminate Hfetch; destruct h2; try congruence;
    destruct o1 as [m1 | ok1 d1]; destruct o2 as [m2 | ok2 d2];
    try destruct ok2;
    repeat match goal with
      | |- context [get ?d ?k] => destruct (get d k)
      end;
    reflexivity.
Qed.

Lemma settlements_commute_witness :
  let ou := Resolved true (VObj [("userIds"%string, VArr [VNum (num 1)])]) in
  let om := Rejected "Failed to fetch" in
  view (after [Settle 0 ou; Settle 0 om])
  = view (after [Settle 1 om; Settle 0 ou]).
Proof.
  intros ou om.
  exact (settlements_commute FetchUsers FetchMovies ou om initial eq_refl
           ltac:(discriminate)).
Defined.
